(** * Kalix regression harness: [verify_all_models.py]

    A shallow embedding of the two variants of the batch verification
    script of the Kalix repository,

      - [regression_tests/verify_all_models.py]             (module [RegressionTests])
      - [regression_tests/simulations/verify_all_models.py] (module [Simulations])

    together with the properties of discovery, per-model classification,
    aggregation, exit status and log-file lifecycle.

    Python [str] values are modelled as [string] (the UTF-8 bytes of the
    text: byte-wise lexicographic order coincides with Python's code point
    order, and substring/suffix tests agree on well-formed text).  Python
    [int] values are modelled as [Z].  The operating system (directory
    tree, [os.path.exists], the engine subprocess, [os.path.relpath], the
    clock) is a record [Env] of total functions; the effects of the script
    (console, log file, subprocess invocations) are threaded through a
    state-and-exception monad.

    Scope of the model.  Paths follow [posixpath].  The directory tree
    holds regular files and readable directories (no symbolic links).
    [subprocess.run] ends in one of three ways: the child exits, the time
    limit expires and the child is killed, or an exception of class
    [Exception] is raised.  [print], [os.path.relpath], [os.remove],
    [open] and [f.write] do not fail, and each is one step (opening the
    log file and writing it are two): a run is cut short between two
    effects, never inside one. *)

From Stdlib Require Import List String Ascii ZArith Bool Arith Lia.
From Stdlib Require Import Permutation Sorted DecimalString.
Import ListNotations.

Local Open Scope string_scope.
Local Open Scope list_scope.

Infix "+++" := String.append (at level 60, right associativity).

(** ** Python string primitives *)

Module PyStr.

(** [sub in s] *)
Fixpoint contains (sub s : string) : bool :=
  String.prefix sub s ||
  match s with
  | EmptyString => false
  | String _ s' => contains sub s'
  end.

(** [s.endswith(suffix)] *)
Definition endswith (s suffix : string) : bool :=
  let n := String.length s in
  let m := String.length suffix in
  (m <=? n)%nat && String.eqb (String.substring (n - m) m s) suffix.

(** [s.startswith(prefix)] *)
Definition startswith (s pre : string) : bool := String.prefix pre s.

(** truthiness of a string: [bool(s)] *)
Definition truthy (s : string) : bool :=
  match s with EmptyString => false | String _ _ => true end.

(** [c * n] for a one-character string [c] *)
Fixpoint repeat_char (c : ascii) (n : nat) : string :=
  match n with
  | O => EmptyString
  | S n' => String c (repeat_char c n')
  end.

(** [str(n)] for an integer *)
Definition str (n : Z) : string := NilZero.string_of_int (Z.to_int n).

(** the one-character string ["\n"] *)
Definition nl : string := String (ascii_of_nat 10) EmptyString.

(** [sep.join(ls)] *)
Definition join (sep : string) (ls : list string) : string :=
  String.concat sep ls.

End PyStr.

(** ** [os.path] on a POSIX platform *)

Module OsPath.

Definition sep : ascii := "/"%char.

(** [(p[:i], p[i:])] where [i = p.rfind('/') + 1]. *)
Fixpoint split_at_last_sep (p : string) : string * string :=
  match p with
  | EmptyString => (EmptyString, EmptyString)
  | String c s =>
      let (h, t) := split_at_last_sep s in
      if PyStr.truthy h then (String c h, t)
      else if Ascii.eqb c sep then (String c EmptyString, s)
      else (EmptyString, String c s)
  end.

(** [s.rstrip('/')] *)
Fixpoint rstrip_sep (s : string) : string :=
  match s with
  | EmptyString => EmptyString
  | String c s' =>
      let r := rstrip_sep s' in
      if Ascii.eqb c sep && negb (PyStr.truthy r) then EmptyString
      else String c r
  end.

(** [head == '/' * len(head)] *)
Definition all_sep (head : string) : bool :=
  String.eqb head (PyStr.repeat_char sep (String.length head)).

(** [os.path.dirname] *)
Definition dirname (p : string) : string :=
  let head := fst (split_at_last_sep p) in
  if PyStr.truthy head && negb (all_sep head) then rstrip_sep head
  else head.

(** [os.path.basename] *)
Definition basename (p : string) : string := snd (split_at_last_sep p).

(** [os.path.join(a, b)] *)
Definition join (a b : string) : string :=
  if PyStr.startswith b (String sep EmptyString) then b
  else if negb (PyStr.truthy a) || PyStr.endswith a (String sep EmptyString)
       then a +++ b
       else a +++ String sep EmptyString +++ b.

End OsPath.

(** ** The directory tree and [os.walk] *)

(** What the file system holds at a path: a regular file, or a directory
    with its entries in the order [os.scandir] enumerates them. *)
#[warnings="-register-all"]
Inductive Node : Type :=
| File (content : string)
| Dir (entries : list (string * Node)).

Definition is_dir (n : Node) : bool :=
  match n with Dir _ => true | File _ => false end.

(** The names [os.walk] puts in [dirs] and in [files] for one directory. *)
Definition dirs_of (entries : list (string * Node)) : list string :=
  map fst (filter (fun e => is_dir (snd e)) entries).

Definition nondirs_of (entries : list (string * Node)) : list string :=
  map fst (filter (fun e => negb (is_dir (snd e))) entries).

(** [os.walk(top)] (top-down, errors of [scandir] ignored) over the node
    found at [top]: one triple [(root, dirs, files)] per directory, the
    directory itself first, then each sub-directory in turn.  A path that
    is not a directory yields nothing. *)
Fixpoint walk (top : string) (n : Node)
  : list (string * list string * list string) :=
  match n with
  | File _ => []
  | Dir entries =>
      (top, dirs_of entries, nondirs_of entries) ::
      (fix sub (es : list (string * Node)) :=
         match es with
         | [] => []
         | (name, child) :: es' =>
             match child with
             | Dir _ => walk (OsPath.join top name) child ++ sub es'
             | File _ => sub es'
             end
         end) entries
  end.

(** ** [sorted] on a list of strings *)

Fixpoint insert_sorted (x : string) (l : list string) : list string :=
  match l with
  | [] => [x]
  | y :: l' => if String.leb x y then x :: l else y :: insert_sorted x l'
  end.

(** [sorted(l)]: the ascending rearrangement of [l] under [<=] on [str]. *)
Definition sorted (l : list string) : list string :=
  fold_right insert_sorted [] l.

(** [find_model_files]' loop body, over the triples produced by [os.walk]:
    every name in [files] that ends with [".ini"], joined to its [root]. *)
Definition ini_files_of (triples : list (string * list string * list string))
  : list string :=
  flat_map
    (fun '(root, _, files) =>
       map (OsPath.join root)
           (filter (fun file => PyStr.endswith file ".ini") files))
    triples.

(** ** The environment and the effects of the script *)

(** The keyword arguments of one [subprocess.run] call. *)
Record Call : Type := mkCall {
  args : list string;
  cwd : string;
  capture_output : bool;
  text : bool;
  timeout : Z
}.

(** How one [subprocess.run] call ends: the child exits on its own, the
    time limit expires (the child is killed and [TimeoutExpired] raised),
    or spawning or communicating raises some other exception whose [str]
    is [description]. *)
Inductive ProcOutcome : Type :=
| Completed (rc : Z) (out err : string)
| TimedOut
| Fault (description : string).

Record CompletedProcess : Type := mkCompleted {
  returncode : Z;
  stdout : string;
  stderr : string
}.

(** Everything the script asks of its surroundings.  [path_exists] and
    [engine] receive the subprocess calls made so far, so an engine run
    may change what later runs see. *)
Record Env : Type := mkEnv {
  tree_at : string -> option Node;
  path_exists : list Call -> string -> bool;
  engine : list Call -> Call -> ProcOutcome;
  relpath : string -> string -> string;
  script_dir : string;
  sys_argv : list string;
  now_isoformat : string
}.

(** The observable surroundings the script changes: the lines printed, the
    content of [verify_all_models_log.txt] ([None] when the file is
    absent), the subprocess calls made, and the child processes that are
    running. *)
Record World : Type := mkWorld {
  console : list string;
  log_file : option string;
  calls : list Call;
  running : list Call
}.

(** How the child of one [subprocess.run] call ends: it exits on its
    own; [subprocess.run] kills it when the time limit expires; or the
    call is aborted by an exception (spawning failed and there is no
    child, or communicating failed and [subprocess.run] killed it). *)
Inductive ChildEnd : Type := Exited | Killed | Aborted.

(** One atomic effect of the script on the world.  Writing the log file
    takes two: [open(log_file, 'w')] creates it empty ([EOpenLog]), and
    [f.write] gives it its content ([EWriteLog]). *)
Inductive Event : Type :=
| EPrint (line : string)
| ERemoveLog
| ESpawn (c : Call)
| EChildEnd (c : Call) (how : ChildEnd)
| EOpenLog
| EWriteLog (content : string).

(** What each effect does to the world.  The child that ends is the one
    started last: [subprocess.run] does not return before the child it
    started has ended, so no other can be running. *)
Definition effect (e : Event) (w : World) : World :=
  match e with
  | EPrint line =>
      mkWorld (console w ++ [line]) (log_file w) (calls w) (running w)
  | ERemoveLog => mkWorld (console w) None (calls w) (running w)
  | ESpawn c =>
      mkWorld (console w) (log_file w) (calls w ++ [c]) (running w ++ [c])
  | EChildEnd _ _ =>
      mkWorld (console w) (log_file w) (calls w) (removelast (running w))
  | EOpenLog => mkWorld (console w) (Some "") (calls w) (running w)
  | EWriteLog content =>
      mkWorld (console w) (Some content) (calls w) (running w)
  end.

(** The world after a sequence of effects: where a run stands when it is
    cut short after exactly these. *)
Definition replay (w : World) (es : list Event) : World :=
  fold_left (fun w e => effect e w) es w.

(** The world, the effects performed so far, and the two lists the
    script mutates in place ([output_lines] of the logging variant and
    [results]). *)
Record State : Type := mkState {
  world : World;
  trace : list Event;
  output_lines : list string;
  results : list (string * bool * string)
}.

Inductive Exc : Type :=
| TimeoutExpired
| Exception (description : string)
| SystemExit (code : Z).

Inductive Result (A : Type) : Type :=
| Ret (a : A)
| Raise (e : Exc).
Arguments Ret {A} a.
Arguments Raise {A} e.

(** State and exceptions. *)
Definition M (A : Type) : Type := State -> Result A * State.

Definition ret {A} (a : A) : M A := fun s => (Ret a, s).

Definition bind {A B} (m : M A) (k : A -> M B) : M B :=
  fun s =>
    match m s with
    | (Ret a, s') => k a s'
    | (Raise e, s') => (Raise e, s')
    end.

Definition raise {A} (e : Exc) : M A := fun s => (Raise e, s).

(** [try: m  except ...: handler] *)
Definition try_except {A} (m : M A) (handler : Exc -> M A) : M A :=
  fun s =>
    match m s with
    | (Ret a, s') => (Ret a, s')
    | (Raise e, s') => handler e s'
    end.

Notation "x <- m ;; k" := (bind m (fun x => k))
  (at level 61, m at next level, right associativity).
Notation "' pat <- m ;; k" := (bind m (fun x => match x with pat => k end))
  (at level 61, pat pattern, m at next level, right associativity).
Notation "m ;; k" := (bind m (fun _ => k))
  (at level 61, right associativity).

(** [for x in l: body(x)] *)
Fixpoint for_each {A} (l : list A) (body : A -> M unit) : M unit :=
  match l with
  | [] => ret tt
  | x :: l' => body x ;; for_each l' body
  end.

Definition perform (e : Event) : M unit :=
  fun s => (Ret tt,
            mkState (effect e (world s)) (trace s ++ [e])
                    (output_lines s) (results s)).

Definition print (message : string) : M unit := perform (EPrint message).

Definition sys_exit {A} (code : Z) : M A := raise (SystemExit code).

Definition set_output_lines (l : list string) : M unit :=
  fun s => (Ret tt, mkState (world s) (trace s) l (results s)).

Definition get_output_lines : M (list string) :=
  fun s => (Ret (output_lines s), s).

Definition set_results (l : list (string * bool * string)) : M unit :=
  fun s => (Ret tt, mkState (world s) (trace s) (output_lines s) l).

Definition get_results : M (list (string * bool * string)) :=
  fun s => (Ret (results s), s).

(** [len(l)] *)
Definition len {A} (l : list A) : Z := Z.of_nat (List.length l).

(** [sum(1 for _, success, _ in results if success)] *)
Definition count_passed (rs : list (string * bool * string)) : Z :=
  fold_left (fun acc '(_, success, _) => if success : bool then acc + 1 else acc)%Z
            rs 0%Z.

Definition tick : string := "  ✓ ".
Definition cross : string := "  ✗ ".

(** ** The functions shared by the two variants *)

(** [os.walk(root_dir)]: the walk of what the environment holds at the
    path; a missing path makes [scandir] fail, which [os.walk] ignores. *)
Definition os_walk (env : Env) (root_dir : string)
  : list (string * list string * list string) :=
  match tree_at env root_dir with
  | Some n => walk root_dir n
  | None => []
  end.

(** [find_model_files(root_dir)], identical in the two files. *)
Definition find_model_files (env : Env) (root_dir : string) : list string :=
  let ini_files := ini_files_of (os_walk env root_dir) in
  sorted ini_files.

(** [os.path.exists(path)] *)
Definition os_path_exists (env : Env) (path : string) : M bool :=
  fun s => (Ret (path_exists env (calls (world s)) path), s).

(** How the child ends for each outcome of the call. *)
Definition child_end (outcome : ProcOutcome) : ChildEnd :=
  match outcome with
  | Completed _ _ _ => Exited
  | TimedOut => Killed
  | Fault _ => Aborted
  end.

(** [subprocess.run(args, cwd=..., capture_output=..., text=..., timeout=...)],
    as the standard library defines it: the child is started and its
    output collected until it exits; when the time limit expires first,
    or communicating fails, the child is killed and waited for before
    the exception is raised.  No child is left running when the call
    returns or raises. *)
Definition subprocess_run (env : Env) (c : Call) : M CompletedProcess :=
  fun s =>
    let outcome := engine env (calls (world s)) c in
    match perform (ESpawn c) s with
    | (_, s1) =>
        match perform (EChildEnd c (child_end outcome)) s1 with
        | (_, s') =>
            match outcome with
            | Completed rc out err => (Ret (mkCompleted rc out err), s')
            | TimedOut => (Raise TimeoutExpired, s')
            | Fault description => (Raise (Exception description), s')
            end
        end
    end.

(** The body of [verify_model], which the two files share up to the
    command line of the engine: [program] and [subcommand] are
    ['kalixcli', 'sim'] in one file and ['kalix', 'simulate'] in the
    other. *)
Definition verify_model_with (program subcommand : string)
    (env : Env) (model_path mbal_filename : string) : M (bool * string) :=
  let model_dir := OsPath.dirname model_path in
  let model_file := OsPath.basename model_path in
  let mbal_path := OsPath.join model_dir mbal_filename in
  present <- os_path_exists env mbal_path ;;
  if negb present then
    ret (false, "Mass balance file not found: " +++ mbal_path)
  else
    try_except
      (result <- subprocess_run env
                   (mkCall [program; subcommand; model_file; "-v"; mbal_filename]
                           model_dir true true 300) ;;
       if (returncode result =? 0)%Z then
         if PyStr.contains "VERIFIED!" (stdout result) then
           ret (true, "VERIFIED!")
         else
           ret (false, "Verification unclear: " +++ stdout result)
       else
         let error_msg :=
           if PyStr.truthy (stderr result) then stderr result
           else stdout result in
         ret (false, "Failed: " +++ error_msg))
      (fun e =>
         match e with
         | TimeoutExpired => ret (false, "Timeout: Model took too long to run")
         | Exception description => ret (false, "Error: " +++ description)
         | SystemExit _ => raise e
         end).

(** [sys.argv[1] if len(sys.argv) > 1 else script_dir] *)
Definition root_dir_of (env : Env) : string :=
  match sys_argv env with
  | _ :: a :: _ => a
  | _ => script_dir env
  end.

Definition rule : string := PyStr.repeat_char "="%char 80.

(** The loop [for model_path in model_files] of [main], which the two
    files share up to the function that emits a line ([print] or [log])
    and their [verify_model]. *)
Definition verify_each (emit : string -> M unit)
    (verify_model : string -> M (bool * string))
    (env : Env) (root_dir : string) (model_files : list string) : M unit :=
  for_each model_files (fun model_path =>
    let rel_path := relpath env model_path root_dir in
    emit ("Verifying: " +++ rel_path) ;;
    '(success, message) <- verify_model model_path ;;
    rs <- get_results ;;
    set_results (rs ++ [(rel_path, success, message)]) ;;
    (if success : bool then emit (tick +++ message)
     else emit (cross +++ message)) ;;
    emit "").

(** The loop [for rel_path, success, message in results] that lists the
    failed models. *)
Definition list_failed (emit : string -> M unit)
    (rs : list (string * bool * string)) : M unit :=
  for_each rs (fun '(rel_path, success, message) =>
    if negb success then
      emit ("  - " +++ rel_path) ;;
      emit ("    " +++ message)
    else ret tt).

(** ** [regression_tests/verify_all_models.py] *)

Module RegressionTests.

Definition default_mbal_filename : string := "mbal_for_verification.txt".

Definition verify_model (env : Env) (model_path : string)
    (mbal_filename : string) : M (bool * string) :=
  verify_model_with "kalixcli" "sim" env model_path mbal_filename.

Definition main (env : Env) : M unit :=
  let root_dir := root_dir_of env in
  print ("Searching for model files in: " +++ root_dir) ;;
  print rule ;;
  let model_files := find_model_files env root_dir in
  (match model_files with
   | [] => print "No .ini files found!" ;; sys_exit 1
   | _ :: _ => ret tt
   end) ;;
  print ("Found " +++ PyStr.str (len model_files) +++ " model file(s)"
         +++ PyStr.nl) ;;
  set_results [] ;;
  verify_each print (fun p => verify_model env p default_mbal_filename)
              env root_dir model_files ;;
  print rule ;;
  print "SUMMARY" ;;
  print rule ;;
  rs <- get_results ;;
  let passed := count_passed rs in
  let failed := (len rs - passed)%Z in
  print ("Total: " +++ PyStr.str (len rs)) ;;
  print ("Passed: " +++ PyStr.str passed) ;;
  print ("Failed: " +++ PyStr.str failed) ;;
  if (failed >? 0)%Z then
    print (PyStr.nl +++ "Failed models:") ;;
    list_failed print rs ;;
    sys_exit 1
  else
    print (PyStr.nl +++ "✓ All models verified successfully!") ;;
    sys_exit 0.

End RegressionTests.

(** ** [regression_tests/simulations/verify_all_models.py] *)

Module Simulations.

Definition default_mbal_filename : string := "mbal.txt".

Definition verify_model (env : Env) (model_path : string)
    (mbal_filename : string) : M (bool * string) :=
  verify_model_with "kalix" "simulate" env model_path mbal_filename.

(** [os.path.exists(log_file)] *)
Definition log_file_exists : M bool :=
  fun s => (Ret (match log_file (world s) with Some _ => true | None => false end), s).

(** The closure [log] of [main]: print, and collect for the log file. *)
Definition log (message : string) : M unit :=
  print message ;;
  ls <- get_output_lines ;;
  set_output_lines (ls ++ [message]).

Definition main (env : Env) : M unit :=
  present <- log_file_exists ;;
  (if present : bool then perform ERemoveLog else ret tt) ;;
  set_output_lines [] ;;
  let root_dir := root_dir_of env in
  log ("Searching for model files in: " +++ root_dir) ;;
  log rule ;;
  let model_files := find_model_files env root_dir in
  (match model_files with
   | [] => log "No .ini files found!" ;; sys_exit 1
   | _ :: _ => ret tt
   end) ;;
  log ("Found " +++ PyStr.str (len model_files) +++ " model file(s)"
       +++ PyStr.nl) ;;
  set_results [] ;;
  verify_each log (fun p => verify_model env p default_mbal_filename)
              env root_dir model_files ;;
  log rule ;;
  log "SUMMARY" ;;
  log rule ;;
  log ("Timestamp: " +++ now_isoformat env) ;;
  rs <- get_results ;;
  let passed := count_passed rs in
  let failed := (len rs - passed)%Z in
  log ("Total: " +++ PyStr.str (len rs)) ;;
  log ("Passed: " +++ PyStr.str passed) ;;
  log ("Failed: " +++ PyStr.str failed) ;;
  (if (failed >? 0)%Z then
     log (PyStr.nl +++ "Failed models:") ;;
     list_failed log rs
   else
     log (PyStr.nl +++ "✓ All models verified successfully!")) ;;
  perform EOpenLog ;;
  ls <- get_output_lines ;;
  perform (EWriteLog (PyStr.join PyStr.nl ls +++ PyStr.nl)) ;;
  sys_exit (if (failed >? 0)%Z then 1 else 0).

End Simulations.

(** The state in which a run starts: nothing printed, no subprocess
    started, [log0] the log file left by an earlier run (if any); the
    lists [output_lines] and [results], not yet assigned, are empty. *)
Definition start (log0 : option string) : State :=
  mkState (mkWorld [] log0 [] []) [] [] [].

(** A small concrete environment used to evaluate the definitions. *)
Module Sample.

Definition tree : Node :=
  Dir [ ("b", Dir [ ("m2.ini", File "x");
                    ("mbal_for_verification.txt", File "") ]);
        ("notes.txt", File "");
        ("a", Dir [ ("m1.ini", File "");
                    ("mbal.txt", File "");
                    ("mbal_for_verification.txt", File "");
                    ("sub", Dir [ ("slow.ini", File "") ]) ]);
        ("top.ini", File "");
        ("mbal.txt", File "") ].

(** The same files, enumerated in another order and with other
    contents. *)
Definition tree_shuffled : Node :=
  Dir [ ("top.ini", File "[kalix]");
        ("a", Dir [ ("sub", Dir [ ("slow.ini", File "") ]);
                    ("mbal_for_verification.txt", File "1");
                    ("m1.ini", File "y");
                    ("mbal.txt", File "") ]);
        ("mbal.txt", File "");
        ("b", Dir [ ("mbal_for_verification.txt", File "");
                    ("m2.ini", File "") ]);
        ("notes.txt", File "") ].

Definition present : list string :=
  [ "/t/a/mbal.txt"; "/t/a/mbal_for_verification.txt";
    "/t/b/mbal_for_verification.txt"; "/t/mbal.txt" ].

(** The engine answers by the name of the model file. *)
Definition run_engine (c : Call) : ProcOutcome :=
  let model_file := nth 2 (args c) "" in
  if String.eqb model_file "m1.ini" then
    Completed 0 "Mass balance VERIFIED! ok" ""
  else if String.eqb model_file "m2.ini" then
    Completed 0 "simulation finished" ""
  else if String.eqb model_file "top.ini" then
    Completed 2 "out" "boom"
  else if String.eqb model_file "quiet.ini" then
    Completed 1 "only on stdout" ""
  else if String.eqb model_file "slow.ini" then TimedOut
  else Fault "[Errno 2] No such file or directory: 'kalix'".

Definition env_with (tree_here : string -> option Node) (argv : list string)
  : Env :=
  mkEnv tree_here
        (fun _ p => existsb (String.eqb p) present)
        (fun _ c => run_engine c)
        (fun p start => String.substring 3 (String.length p - 3) p)
        "/s" argv "2025-01-01T00:00:00".

Definition env : Env :=
  env_with (fun p => if String.eqb p "/t" then Some tree else None)
           ["verify_all_models.py"; "/t"].

Definition env_shuffled : Env :=
  env_with (fun p => if String.eqb p "/t" then Some tree_shuffled else None)
           ["verify_all_models.py"; "/t"].

(** Two enumerations of one small tree. *)
Definition small : Node :=
  Dir [ ("a.ini", File "1");
        ("d", Dir [ ("x.ini", File ""); ("y.txt", File "") ]) ].

Definition small_shuffled : Node :=
  Dir [ ("d", Dir [ ("y.txt", File "z"); ("x.ini", File "") ]);
        ("a.ini", File "2") ].

Definition env_small : Env :=
  env_with (fun p => if String.eqb p "/t" then Some small else None)
           ["verify_all_models.py"; "/t"].

Definition env_small_shuffled : Env :=
  env_with (fun p => if String.eqb p "/t" then Some small_shuffled else None)
           ["verify_all_models.py"; "/t"].

(** A search root that is a regular file, and one that does not exist. *)
Definition env_file_root : Env :=
  env_with (fun p => if String.eqb p "/t/notes.txt" then Some (File "")
                     else None)
           ["verify_all_models.py"; "/t/notes.txt"].

Definition env_no_root : Env :=
  env_with (fun _ => None) ["verify_all_models.py"].

(** A tree in which every model verifies. *)
Definition env_green : Env :=
  env_with (fun p => if String.eqb p "/t"
                     then Some (Dir [("a", Dir [("m1.ini", File "")])])
                     else None)
           ["verify_all_models.py"; "/t"].

End Sample.

(** * Specification vocabulary *)

(** The two scripts. *)
Inductive Script : Type := Base | Logging.

Definition verify_model_of (v : Script)
  : Env -> string -> string -> M (bool * string) :=
  match v with
  | Base => RegressionTests.verify_model
  | Logging => Simulations.verify_model
  end.

Definition main_of (v : Script) : Env -> M unit :=
  match v with
  | Base => RegressionTests.main
  | Logging => Simulations.main
  end.

(** The path at which [verify_model] looks for the mass-balance file. *)
Definition mbal_path_of (model_path mbal_filename : string) : string :=
  OsPath.join (OsPath.dirname model_path) mbal_filename.

(** The [subprocess.run] call of each script for a model. *)
Definition engine_call_of (v : Script) (model_path mbal_filename : string)
  : Call :=
  let argv :=
    match v with
    | Base => ["kalixcli"; "sim"]
    | Logging => ["kalix"; "simulate"]
    end in
  mkCall (argv ++ [OsPath.basename model_path; "-v"; mbal_filename])
         (OsPath.dirname model_path) true true 300.

(** The order of [str]. *)
Definition le_str (a b : string) : Prop := String.leb a b = true.

(** [file_below top n path name]: under the directory [n] found at path
    [top] there is, at any depth, a regular file called [name] whose
    path, built with [os.path.join] from [top] downwards, is [path]. *)
Inductive file_below : string -> Node -> string -> string -> Prop :=
| fb_here top entries name content :
    In (name, File content) entries ->
    file_below top (Dir entries) (OsPath.join top name) name
| fb_deeper top entries d sub path name :
    In (d, Dir sub) entries ->
    file_below (OsPath.join top d) (Dir sub) path name ->
    file_below top (Dir entries) path name.

(** Following the specification's words, not the code: the files below
    the directory [n] found at path [top], at any depth, each listed once
    with its path and its name.  The listing goes through the entries of
    a directory in their order and descends into a sub-directory where it
    stands, unlike [os.walk], which lists the files of a directory before
    any of its sub-directories. *)
Fixpoint files_below (top : string) (n : Node) : list (string * string) :=
  match n with
  | File _ => []
  | Dir entries =>
      (fix each (es : list (string * Node)) :=
         match es with
         | [] => []
         | (name, child) :: es' =>
             match child with
             | File _ => [(OsPath.join top name, name)]
             | Dir _ => files_below (OsPath.join top name) child
             end ++ each es'
         end) entries
  end.

(** The paths of those among [fs] whose name ends with [".ini"]. *)
Definition model_paths (fs : list (string * string)) : list string :=
  map fst (filter (fun pn => PyStr.endswith (snd pn) ".ini") fs).

(** Following the specification's words: all files below the root
    directory whose name ends with the model-definition extension, one
    entry for each file. *)
Definition model_files_below (env : Env) (root_dir : string) : list string :=
  match tree_at env root_dir with
  | Some n => model_paths (files_below root_dir n)
  | None => []
  end.

(** The listing of the entries of one directory: [files_below] of
    [Dir entries]. *)
Definition files_below_entries (top : string) (entries : list (string * Node))
  : list (string * string) :=
  flat_map
    (fun e => match snd e with
              | File _ => [(OsPath.join top (fst e), fst e)]
              | Dir _ => files_below (OsPath.join top (fst e)) (snd e)
              end)
    entries.

(** Two nodes hold the same names in the same places: they differ at most
    in the order in which each directory enumerates its entries and in the
    content of the files. *)
#[warnings="-register-all"]
Inductive same_layout : Node -> Node -> Prop :=
| sl_file c c' : same_layout (File c) (File c')
| sl_dir es es' es'' :
    Forall2 (fun a b => fst a = fst b /\ same_layout (snd a) (snd b)) es es' ->
    Permutation es' es'' ->
    same_layout (Dir es) (Dir es'').

Definition layout_entry (a b : string * Node) : Prop :=
  fst a = fst b /\ same_layout (snd a) (snd b).

Definition same_layout_at (a b : option Node) : Prop :=
  match a, b with
  | Some n, Some n' => same_layout n n'
  | None, None => True
  | _, _ => False
  end.

(** The walks of the sub-directories among [entries], one after the
    other: the tail of [walk top (Dir entries)]. *)
Definition walk_subdirs (top : string) (entries : list (string * Node))
  : list (string * list string * list string) :=
  flat_map
    (fun e => match snd e with
              | Dir _ => walk (OsPath.join top (fst e)) (snd e)
              | File _ => []
              end)
    entries.

Definition is_ini (file : string) : bool := PyStr.endswith file ".ini".

(** The three lines a run prints when it finds no model file. *)
Definition no_files_lines (env : Env) : list string :=
  [ "Searching for model files in: " +++ root_dir_of env;
    rule;
    "No .ini files found!" ].


(** The effects that bring the log file into being or fill it. *)
Definition is_write (e : Event) : bool :=
  match e with EOpenLog | EWriteLog _ => true | _ => false end.

Definition success_of (r : string * bool * string) : bool := snd (fst r).
Definition path_of (r : string * bool * string) : string := fst (fst r).
Definition message_of (r : string * bool * string) : string := snd r.

Definition default_mbal_of (v : Script) : string :=
  match v with
  | Base => RegressionTests.default_mbal_filename
  | Logging => Simulations.default_mbal_filename
  end.

(** Whether the script mirrors what it prints into [output_lines]. *)
Definition mirrors (v : Script) : bool :=
  match v with Base => false | Logging => true end.

(** ** The run of a script, as a function of its environment

    The definitions below restate, as plain functions, what the monadic
    programs above do; the lemmas [verify_model_run] and [main_run] prove
    that they agree, and the theorems about a whole run are read off the
    explicit sequence of effects [main_trace]. *)

(** The state after one effect: the world changes, the effect is
    recorded, and in the logging variant a printed line is also
    collected. *)
Definition do_event (mirror : bool) (e : Event) (s : State) : State :=
  mkState (effect e (world s)) (trace s ++ [e])
          (match e with
           | EPrint line => if mirror then output_lines s ++ [line]
                            else output_lines s
           | _ => output_lines s
           end)
          (results s).

Definition do_events (mirror : bool) (es : list Event) (s : State) : State :=
  fold_left (fun s e => do_event mirror e s) es s.

Definition with_results (rs : list (string * bool * string)) (s : State)
  : State :=
  mkState (world s) (trace s) (output_lines s) rs.

(** The pair [verify_model] returns when [hist] are the subprocess calls
    made so far. *)
Definition verdict (v : Script) (env : Env) (hist : list Call)
    (model_path mbal_filename : string) : bool * string :=
  if path_exists env hist (mbal_path_of model_path mbal_filename) then
    match engine env hist (engine_call_of v model_path mbal_filename) with
    | Completed rc out err =>
        if (rc =? 0)%Z then
          if PyStr.contains "VERIFIED!" out then (true, "VERIFIED!")
          else (false, "Verification unclear: " +++ out)
        else (false, "Failed: " +++ (if PyStr.truthy err then err else out))
    | TimedOut => (false, "Timeout: Model took too long to run")
    | Fault description => (false, "Error: " +++ description)
    end
  else (false, "Mass balance file not found: "
               +++ mbal_path_of model_path mbal_filename).

(** The subprocess calls [verify_model] makes: one, or none. *)
Definition spawned (v : Script) (env : Env) (hist : list Call)
    (model_path mbal_filename : string) : list Call :=
  if path_exists env hist (mbal_path_of model_path mbal_filename)
  then [engine_call_of v model_path mbal_filename]
  else [].

(** The effects of [verify_model]: the engine call and the end of its
    child, or nothing. *)
Definition engine_events (v : Script) (env : Env) (hist : list Call)
    (model_path mbal_filename : string) : list Event :=
  if path_exists env hist (mbal_path_of model_path mbal_filename)
  then [ESpawn (engine_call_of v model_path mbal_filename);
        EChildEnd (engine_call_of v model_path mbal_filename)
          (child_end (engine env hist
                        (engine_call_of v model_path mbal_filename)))]
  else [].

(** The effects of one iteration of the verification loop. *)
Definition model_events (v : Script) (env : Env) (hist : list Call)
    (root_dir model_path : string) : list Event :=
  let '(success, message) :=
    verdict v env hist model_path (default_mbal_of v) in
  [EPrint ("Verifying: " +++ relpath env model_path root_dir)]
  ++ engine_events v env hist model_path (default_mbal_of v)
  ++ [EPrint ((if success then tick else cross) +++ message); EPrint ""].

Fixpoint loop_events (v : Script) (env : Env) (hist : list Call)
    (root_dir : string) (model_files : list string) : list Event :=
  match model_files with
  | [] => []
  | p :: ps =>
      model_events v env hist root_dir p
      ++ loop_events v env
           (hist ++ spawned v env hist p (default_mbal_of v)) root_dir ps
  end.

(** The entries the verification loop appends to [results]. *)
Fixpoint outcomes (v : Script) (env : Env) (hist : list Call)
    (root_dir : string) (model_files : list string)
  : list (string * bool * string) :=
  match model_files with
  | [] => []
  | p :: ps =>
      (relpath env p root_dir,
       fst (verdict v env hist p (default_mbal_of v)),
       snd (verdict v env hist p (default_mbal_of v)))
      :: outcomes v env
           (hist ++ spawned v env hist p (default_mbal_of v)) root_dir ps
  end.

Definition failed_events (rs : list (string * bool * string)) : list Event :=
  flat_map
    (fun r => if negb (success_of r)
              then [EPrint ("  - " +++ path_of r);
                    EPrint ("    " +++ message_of r)]
              else [])
    rs.

(** The lines printed by a sequence of effects. *)
Definition printed (es : list Event) : list string :=
  flat_map (fun e => match e with EPrint line => [line] | _ => [] end) es.

(** The effects of the summary block. *)
Definition summary_events (v : Script) (env : Env)
    (rs : list (string * bool * string)) : list Event :=
  let passed := count_passed rs in
  let failed := (len rs - passed)%Z in
  [EPrint rule; EPrint "SUMMARY"; EPrint rule]
  ++ (if mirrors v then [EPrint ("Timestamp: " +++ now_isoformat env)] else [])
  ++ [EPrint ("Total: " +++ PyStr.str (len rs));
      EPrint ("Passed: " +++ PyStr.str passed);
      EPrint ("Failed: " +++ PyStr.str failed)]
  ++ (if (failed >? 0)%Z
      then EPrint (PyStr.nl +++ "Failed models:") :: failed_events rs
      else [EPrint (PyStr.nl +++ "✓ All models verified successfully!")]).

(** The results of a whole run. *)
Definition main_results (v : Script) (env : Env)
  : list (string * bool * string) :=
  outcomes v env [] (root_dir_of env) (find_model_files env (root_dir_of env)).

(** The removal of the log file left by an earlier run. *)
Definition removal_events (v : Script) (log0 : option string) : list Event :=
  match v, log0 with
  | Logging, Some _ => [ERemoveLog]
  | _, _ => []
  end.

(** The effects of a run up to the search for model files. *)
Definition opening_events (v : Script) (env : Env) (log0 : option string)
  : list Event :=
  removal_events v log0
  ++ [EPrint ("Searching for model files in: " +++ root_dir_of env);
      EPrint rule].

(** The effects of a run that found model files, up to and including the
    summary. *)
Definition body_events (v : Script) (env : Env) (log0 : option string)
  : list Event :=
  let root_dir := root_dir_of env in
  let model_files := find_model_files env root_dir in
  opening_events v env log0
  ++ [EPrint ("Found " +++ PyStr.str (len model_files)
              +++ " model file(s)" +++ PyStr.nl)]
  ++ loop_events v env [] root_dir model_files
  ++ summary_events v env (main_results v env).

(** What the logging script does after the summary. *)
Definition closing_events (v : Script) (body : list Event) : list Event :=
  if mirrors v
  then [EOpenLog;
        EWriteLog (PyStr.join PyStr.nl (printed body) +++ PyStr.nl)]
  else [].

(** The effects of a whole run that starts with the log file [log0]. *)
Definition main_trace (v : Script) (env : Env) (log0 : option string)
  : list Event :=
  match find_model_files env (root_dir_of env) with
  | [] => opening_events v env log0 ++ [EPrint "No .ini files found!"]
  | _ :: _ =>
      body_events v env log0 ++ closing_events v (body_events v env log0)
  end.

(** The status with which a run exits. *)
Definition main_exit_code (v : Script) (env : Env) : Z :=
  match find_model_files env (root_dir_of env) with
  | [] => 1
  | _ :: _ =>
      let rs := main_results v env in
      if (len rs - count_passed rs >? 0)%Z then 1 else 0
  end.

(** The state a run has reached when [es] are its effects so far and
    [rs] is its list [results]. *)
Definition reached (v : Script) (log0 : option string)
    (rs : list (string * bool * string)) (es : list Event) : State :=
  with_results rs (do_events (mirrors v) es (start log0)).

(** The state in which a run ends. *)
Definition main_final (v : Script) (env : Env) (log0 : option string)
  : State :=
  reached v log0
    (match find_model_files env (root_dir_of env) with
     | [] => []
     | _ :: _ => main_results v env
     end)
    (main_trace v env log0).

(** The subprocess calls among a sequence of effects. *)
Definition spawn_calls (es : list Event) : list Call :=
  flat_map (fun e => match e with ESpawn c => [c] | _ => [] end) es.

Definition emit_of (v : Script) : string -> M unit :=
  match v with
  | Base => print
  | Logging => Simulations.log
  end.

(** Effects that leave the log file alone. *)
Definition quiet (e : Event) : bool :=
  match e with
  | EPrint _ | ESpawn _ | EChildEnd _ _ => true
  | ERemoveLog | EOpenLog | EWriteLog _ => false
  end.


(** * Further vocabulary *)

(** [subseq a b]: [a] is [b] with some elements left out, order kept. *)
Inductive subseq {A : Type} : list A -> list A -> Prop :=
| subseq_nil : subseq [] []
| subseq_take x a b : subseq a b -> subseq (x :: a) (x :: b)
| subseq_skip x a b : subseq a b -> subseq a (x :: b).

(** The three lines printed while one model is verified. *)
Definition progress_lines (r : string * bool * string) : list string :=
  [ "Verifying: " +++ path_of r;
    (if success_of r then tick else cross) +++ message_of r;
    "" ].

(** The two lines that list one failed model. *)
Definition failed_lines (r : string * bool * string) : list string :=
  [ "  - " +++ path_of r; "    " +++ message_of r ].

Definition failed (r : string * bool * string) : bool := negb (success_of r).

(** A name without a path separator. *)
Fixpoint no_sep (name : string) : bool :=
  match name with
  | EmptyString => true
  | String c s => negb (Ascii.eqb c OsPath.sep) && no_sep s
  end.

(** * [update_version.py]

    The script copies the version found in the file [VERSION] into the
    first version line of [Cargo.toml] and of [kalixpy/Cargo.toml].

    Scope of the model.  Paths are the parts below the directory of the
    script; a path holds nothing, a directory, or a text file whose
    content [read_text] returns and [write_text] replaces as it is.
    [str.strip] and the text of a path ([str(root / ...)]) are given by
    the environment.  [re.sub] is modelled for a replacement text without
    backslash, which it copies literally; with a backslash it expands or
    rejects escapes, and the run is then outside the model
    ([Unmodelled]). *)

Module UpdateVersion.

(** What is found at a path. *)
Inductive Entry : Type :=
| Directory
| TextFile (content : string).

(** A path below [root], by its parts. *)
Definition Path : Type := list string.

Definition Files : Type := Path -> option Entry.

Record Env : Type := mkEnv {
strip : string -> string;
show : Path -> string
}.

Record State : Type := mkState {
files : Files;
console : list string
}.

(** How a step ends: normally, by [IsADirectoryError] from [read_text],
  or outside the model. *)
Inductive Res (A : Type) : Type :=
| Ok (a : A)
| IsADirectoryError (path : Path)
| Unmodelled.
Arguments Ok {A} a.
Arguments IsADirectoryError {A} path.
Arguments Unmodelled {A}.

Definition path_eqb (p q : Path) : bool :=
if list_eq_dec string_dec p q then true else false.

Definition print (message : string) (st : State) : State :=
mkState (files st) (console st ++ [message]).

(** [path.write_text(content)] *)
Definition write_text (path : Path) (content : string) (st : State) : State :=
mkState (fun p => if path_eqb p path then Some (TextFile content)
                  else files st p)
        (console st).

(** [path.relative_to(root)], as text *)
Definition relative (path : Path) : string := String.concat "/" path.

(** The double quote character. *)
Definition quote : ascii := ascii_of_nat 34.
Definition dq : string := String quote EmptyString.

Definition newline : ascii := ascii_of_nat 10.

(** The literal head of the pattern: [version = ] and a double quote. *)
Definition key : string := "version = " +++ dq.

(** [s] without the leading [pre], if it starts with it. *)
Fixpoint strip_prefix (pre s : string) : option string :=
match pre with
| EmptyString => Some s
| String a pre' =>
    match s with
    | EmptyString => None
    | String b s' => if Ascii.eqb a b then strip_prefix pre' s' else None
    end
end.

(** The longest prefix of [s] without a double quote, and what follows. *)
Fixpoint span_unquoted (s : string) : string * string :=
match s with
| EmptyString => (EmptyString, EmptyString)
| String c s' =>
    if Ascii.eqb c quote then (EmptyString, s)
    else let (run, rest) := span_unquoted s' in (String c run, rest)
end.

(** A match of the pattern starting at the head of [s] ([key], then one
  or more characters other than a double quote, then a double quote):
  what follows the match.  The character class takes every character
  up to the next double quote, newlines included. *)
Definition match_here (s : string) : option string :=
match strip_prefix key s with
| None => None
| Some t =>
    match span_unquoted t with
    | (String _ _, String _ rest) => Some rest
    | _ => None
    end
end.

(** [re.sub(pattern, repl, s, count=1, flags=re.MULTILINE)] for the
  pattern of [main] (a line start, then a match as in [match_here]) and
  a literal [repl]: the leftmost match that starts at the beginning of
  [s] or right after a newline is replaced by [repl].  [bol] tells
  whether the head of [s] is at the beginning of a line. *)
Fixpoint sub_first (repl : string) (bol : bool) (s : string) : string :=
match (if bol then match_here s else None) with
| Some rest => repl +++ rest
| None =>
    match s with
    | EmptyString => EmptyString
    | String c s' => String c (sub_first repl (Ascii.eqb c newline) s')
    end
end.

(** The call of [re.sub] in [main]; the replacement text is [key], the
  version and a double quote. *)
Definition re_sub_version (version content : string) : option string :=
if PyStr.contains "\" version then None
else Some (sub_first (key +++ version +++ dq) true content).

Definition cargo_files : list Path :=
[ ["Cargo.toml"]; ["kalixpy"; "Cargo.toml"] ].

(** The loop [for cargo_file in cargo_files]. *)
Fixpoint for_cargo_files (env : Env) (version : string)
  (paths : list Path) (st : State) : Res unit * State :=
match paths with
| [] => (Ok tt, st)
| cargo_file :: rest =>
    match files st cargo_file with
    | None =>
        for_cargo_files env version rest
          (print ("Warning: " +++ show env cargo_file
                  +++ " not found, skipping") st)
    | Some Directory => (IsADirectoryError cargo_file, st)
    | Some (TextFile content) =>
        match re_sub_version version content with
        | None => (Unmodelled, st)
        | Some new_content =>
            if negb (String.eqb content new_content) then
              for_cargo_files env version rest
                (print ("Updated " +++ relative cargo_file
                        +++ " to version " +++ version)
                       (write_text cargo_file new_content st))
            else
              for_cargo_files env version rest
                (print (relative cargo_file +++ " already at version "
                        +++ version) st)
        end
    end
end.

(** [main()], with the value it returns. *)
Definition main (env : Env) (st : State) : Res Z * State :=
let version_file : Path := ["VERSION"] in
match files st version_file with
| None =>
    (Ok 1%Z, print ("Error: " +++ show env version_file +++ " not found") st)
| Some Directory => (IsADirectoryError version_file, st)
| Some (TextFile text) =>
    let version := strip env text in
    let st := print ("Version from VERSION file: " +++ version) st in
    match for_cargo_files env version cargo_files st with
    | (Ok _, st) =>
        let st := print (PyStr.nl +++ "Done! Next steps:") st in
        let st := print "  1. Build both projects to verify" st in
        let st := print "  2. Commit changes" st in
        let st := print ("  3. Tag release: git tag v" +++ version) st in
        (Ok 0%Z, st)
    | (IsADirectoryError path, st) => (IsADirectoryError path, st)
    | (Unmodelled, st) => (Unmodelled, st)
    end
end.

(** A string without a double quote. *)
Definition unquoted (s : string) : bool := negb (PyStr.contains dq s).

(** A version that can stand between the quotes of a [version] line and
  be copied literally. *)
Definition plain_version (version : string) : Prop :=
version <> "" /\ unquoted version = true
/\ PyStr.contains "\" version = false.

(** [s] holds a double quote. *)
Fixpoint has_quote (s : string) : bool :=
match s with
| EmptyString => false
| String c s' => Ascii.eqb c quote || has_quote s'
end.

(** [s] starts with [k], then has a character other than a double quote,
  and a double quote somewhere after it: the pattern matches at the
  head of [k ++ ...] once [k] is what is left of [key]. *)
Fixpoint accepts (k s : string) : bool :=
match k with
| EmptyString =>
    match s with
    | EmptyString => false
    | String c s' => negb (Ascii.eqb c quote) && has_quote s'
    end
| String a k' =>
    match s with
    | EmptyString => false
    | String b s' => Ascii.eqb a b && accepts k' s'
    end
end.

(** The suffixes of a string, longest first. *)
Fixpoint tails (s : string) : list string :=
s :: match s with
     | EmptyString => []
     | String _ s' => tails s'
     end.

(** [rewritten v s t]: [t] is [s], or [s] with one version assignment
  given the value [v]. *)
Inductive rewritten (v : string) : string -> string -> Prop :=
| rw_same s : rewritten v s s
| rw_here old rest :
  old <> "" -> unquoted old = true ->
  rewritten v (key +++ old +++ dq +++ rest) (key +++ v +++ dq +++ rest)
| rw_later c s t : rewritten v s t -> rewritten v (String c s) (String c t).

(** What a run makes of a Cargo file: a text file gets the version in its
  first version line, anything else stays. *)
Definition bump (version : string) (e : option Entry) : option Entry :=
match e with
| Some (TextFile content) =>
    Some (TextFile (sub_first (key +++ version +++ dq) true content))
| other => other
end.

Definition is_cargo_file (p : Path) : bool := existsb (path_eqb p) cargo_files.

(** [pre] ends where a line begins: it is empty (and [bol] says that a
  line begins there) or ends with a newline. *)
Definition at_line_start (bol : bool) (pre : string) : Prop :=
(pre = "" /\ bol = true) \/ exists p, pre = p +++ String newline "".

(** [s] has a version assignment after [pre]: [key], a non-empty value
  without double quote, a double quote, and [rest]. *)
Definition version_line_at (s pre old rest : string) : Prop :=
s = pre +++ key +++ old +++ dq +++ rest
/\ old <> "" /\ unquoted old = true.

(** Two entries of the same kind: both nothing, both directories, or
  both text files. *)
Definition same_kind (e e' : option Entry) : Prop :=
match e, e' with
| None, None => True
| Some Directory, Some Directory => True
| Some (TextFile _), Some (TextFile _) => True
| _, _ => False
end.

(** A sample project. *)
Definition sample_env : Env :=
mkEnv (fun s => s) (fun p => "/repo/" +++ relative p).

Definition sample_cargo : string :=
"[package]" +++ PyStr.nl +++ "name = " +++ dq +++ "kalix" +++ dq
+++ PyStr.nl +++ key +++ "0.1.0" +++ dq +++ PyStr.nl
+++ "[dependencies.x]" +++ PyStr.nl +++ key +++ "9" +++ dq +++ PyStr.nl.

Definition sample_files : Files :=
fun p =>
  if path_eqb p ["VERSION"] then Some (TextFile "0.2.0")
  else if path_eqb p ["Cargo.toml"] then Some (TextFile sample_cargo)
  else if path_eqb p ["kalixpy"] then Some Directory
  else None.

Definition sample_state : State := mkState sample_files [].

End UpdateVersion.

(** * Properties *)

(** ** Strings *)

Section StringFacts.

Lemma prefix_append (s t : string) : String.prefix s (s +++ t) = true.
Proof.
  induction s as [|c s IH]; simpl.
  - now destruct t.
  - destruct (ascii_dec c c) as [_|ne]; [exact IH | now elim ne].
Qed.

Lemma contains_prefix (sub s : string) :
  String.prefix sub s = true -> PyStr.contains sub s = true.
Proof. intros H. destruct s; simpl in *; rewrite H; reflexivity. Qed.

Lemma contains_skip (sub : string) (c : ascii) (s : string) :
  PyStr.contains sub s = true -> PyStr.contains sub (String c s) = true.
Proof. intros H. cbn [PyStr.contains]. rewrite H. apply orb_true_r. Qed.

(** A string occurs in whatever is built around it. *)
Lemma contains_infix (pre s post : string) :
  PyStr.contains s (pre +++ s +++ post) = true.
Proof.
  induction pre as [|c pre IH]; cbn [String.append].
  - apply contains_prefix, prefix_append.
  - apply contains_skip, IH.
Qed.

Lemma contains_suffix (pre s : string) : PyStr.contains s (pre +++ s) = true.
Proof.
  replace (pre +++ s) with (pre +++ s +++ "").
  - apply contains_infix.
  - f_equal. induction s; simpl; congruence.
Qed.


Lemma append_assoc (a b c : string) : (a +++ b) +++ c = a +++ b +++ c.
Proof. induction a; simpl; congruence. Qed.

Lemma length_append (a b : string) :
  String.length (a +++ b) = (String.length a + String.length b)%nat.
Proof. induction a; simpl; congruence. Qed.

Lemma substring_all (s : string) : String.substring 0 (String.length s) s = s.
Proof. induction s; simpl; congruence. Qed.

Lemma substring_skip (pre s : string) (m : nat) :
  String.substring (String.length pre) m (pre +++ s) = String.substring 0 m s.
Proof. induction pre; simpl; auto. Qed.

(** Cutting a string at position [k] loses nothing. *)
Lemma substring_split (s : string) (k : nat) :
  (k <= String.length s)%nat ->
  s = String.substring 0 k s +++ String.substring k (String.length s - k) s.
Proof.
  revert k; induction s as [|c s IH]; intros [|k] H; simpl in *;
    try reflexivity; try lia.
  - now rewrite substring_all.
  - f_equal. apply IH. lia.
Qed.

(** [endswith] is exactly "has this suffix". *)
Lemma endswith_iff (s suffix : string) :
  PyStr.endswith s suffix = true <-> exists stem, s = stem +++ suffix.
Proof.
  unfold PyStr.endswith; split.
  - intros H. apply andb_true_iff in H as [Hle Heq].
    apply Nat.leb_le in Hle. apply String.eqb_eq in Heq.
    exists (String.substring 0 (String.length s - String.length suffix) s).
    pose proof (substring_split s (String.length s - String.length suffix))
      as Hs.
    replace (String.length s - (String.length s - String.length suffix))%nat
      with (String.length suffix) in Hs by lia.
    rewrite Heq in Hs. apply Hs. lia.
  - intros [stem ->]. rewrite length_append.
    apply andb_true_iff; split; [apply Nat.leb_le; lia|].
    replace (String.length stem + String.length suffix - String.length suffix)%nat
      with (String.length stem) by lia.
    rewrite substring_skip, substring_all. apply String.eqb_refl.
Qed.

Lemma ascii_compare_refl (a : ascii) : Ascii.compare a a = Eq.
Proof. unfold Ascii.compare. apply N.compare_refl. Qed.

Lemma string_compare_refl (s : string) : String.compare s s = Eq.
Proof. induction s; simpl; [|rewrite ascii_compare_refl]; auto. Qed.

Lemma leb_refl (s : string) : String.leb s s = true.
Proof. unfold String.leb. now rewrite string_compare_refl. Qed.

Lemma compare_not_gt_trans (a b c : string) :
  String.compare a b <> Gt -> String.compare b c <> Gt ->
  String.compare a c <> Gt.
Proof.
  revert b c; induction a as [|x a IH]; intros [|y b] [|z c]; simpl;
    try congruence.
  unfold Ascii.compare.
  destruct (N.compare_spec (N_of_ascii x) (N_of_ascii y)) as [E1|L1|G1];
    destruct (N.compare_spec (N_of_ascii y) (N_of_ascii z)) as [E2|L2|G2];
    try congruence; intros H1 H2.
  - rewrite E1, E2, N.compare_refl. eauto.
  - rewrite E1. apply N.compare_lt_iff in L2. now rewrite L2.
  - rewrite <- E2. apply N.compare_lt_iff in L1. now rewrite L1.
  - assert (L : (N_of_ascii x < N_of_ascii z)%N) by lia.
    apply N.compare_lt_iff in L. now rewrite L.
Qed.

Lemma leb_trans (a b c : string) :
  String.leb a b = true -> String.leb b c = true -> String.leb a c = true.
Proof.
  unfold String.leb. intros H1 H2.
  assert (N : String.compare a c <> Gt).
  { apply (compare_not_gt_trans a b c).
    - destruct (String.compare a b); congruence.
    - destruct (String.compare b c); congruence. }
  destruct (String.compare a c); congruence.
Qed.

End StringFacts.

(** ** [sorted] *)

Section SortedFacts.

Lemma insert_sorted_perm (x : string) (l : list string) :
  Permutation (insert_sorted x l) (x :: l).
Proof.
  induction l as [|y l IH]; simpl; [reflexivity|].
  destruct (String.leb x y); [reflexivity|].
  rewrite IH. apply perm_swap.
Qed.

Lemma sorted_perm (l : list string) : Permutation (sorted l) l.
Proof.
  induction l as [|x l IH]; simpl; [reflexivity|].
  rewrite insert_sorted_perm. now constructor.
Qed.

Lemma insert_sorted_ordered (x : string) (l : list string) :
  StronglySorted le_str l -> StronglySorted le_str (insert_sorted x l).
Proof.
  induction 1 as [|y l Hl IH Hy]; simpl.
  - repeat constructor.
  - destruct (String.leb x y) eqn:E.
    + constructor; [now constructor|].
      constructor; [exact E|].
      eapply Forall_impl; [|exact Hy]. intros z Hz.
      exact (leb_trans _ _ _ E Hz).
    + constructor; [exact IH|].
      eapply Permutation_Forall; [symmetry; apply insert_sorted_perm|].
      constructor; [|exact Hy].
      destruct (String.leb_total x y); [congruence|assumption].
Qed.

Lemma sorted_ordered (l : list string) : StronglySorted le_str (sorted l).
Proof.
  induction l; simpl; [constructor|now apply insert_sorted_ordered].
Qed.

(** An ascending list is determined by its elements. *)
Lemma ordered_unique (l1 l2 : list string) :
  StronglySorted le_str l1 -> StronglySorted le_str l2 ->
  Permutation l1 l2 -> l1 = l2.
Proof.
  intros S1; revert l2; induction S1 as [|x l1 S1 IH Hx]; intros l2 S2 P.
  - now apply Permutation_nil in P.
  - destruct S2 as [|y l2 S2 Hy].
    + symmetry in P. now apply Permutation_nil in P.
    + assert (x = y).
      { assert (Ix : In x (y :: l2))
          by (eapply Permutation_in; [exact P|now left]).
        assert (Iy : In y (x :: l1))
          by (eapply Permutation_in; [symmetry; exact P|now left]).
        destruct Ix as [->|Ix]; [reflexivity|].
        destruct Iy as [->|Iy]; [reflexivity|].
        rewrite Forall_forall in Hx, Hy.
        apply String.leb_antisym; [apply Hx, Iy|apply Hy, Ix]. }
      subst y. f_equal. apply IH; [assumption|].
      now apply Permutation_cons_inv in P.
Qed.

Lemma sorted_of_perm (l1 l2 : list string) :
  Permutation l1 l2 -> sorted l1 = sorted l2.
Proof.
  intros P. apply ordered_unique; try apply sorted_ordered.
  now rewrite !sorted_perm.
Qed.

End SortedFacts.

(** ** Discovery *)

Section Discovery.

(** Induction on a directory tree, with the hypothesis available for
    every entry of a directory. *)
Lemma Node_ind_entries (P : Node -> Prop) :
  (forall c, P (File c)) ->
  (forall es, Forall (fun e => P (snd e)) es -> P (Dir es)) ->
  forall n, P n.
Proof.
  intros Hfile Hdir. fix IH 1. intros [c|es].
  - apply Hfile.
  - apply Hdir. induction es as [|e es IHes]; constructor.
    + apply IH.
    + exact IHes.
Qed.

Lemma walk_dir (top : string) (es : list (string * Node)) :
  walk top (Dir es) = (top, dirs_of es, nondirs_of es) :: walk_subdirs top es.
Proof.
  cbn [walk]. f_equal. unfold walk_subdirs.
  induction es as [|[name [c|sub]] es IH]; cbn [flat_map fst snd app].
  - reflexivity.
  - exact IH.
  - now rewrite IH.
Qed.

Lemma ini_files_of_app a b :
  ini_files_of (a ++ b) = ini_files_of a ++ ini_files_of b.
Proof. apply flat_map_app. Qed.

Lemma ini_files_of_dir (top : string) (es : list (string * Node)) :
  ini_files_of (walk top (Dir es)) =
  map (OsPath.join top) (filter is_ini (nondirs_of es))
  ++ ini_files_of (walk_subdirs top es).
Proof. rewrite walk_dir. reflexivity. Qed.

Lemma in_nondirs (name : string) (es : list (string * Node)) :
  In name (nondirs_of es) <-> exists c, In (name, File c) es.
Proof.
  unfold nondirs_of. rewrite in_map_iff. split.
  - intros [[nm [c|sub]] [E H]]; apply filter_In in H as [H D];
      simpl in *; try discriminate.
    subst. now exists c.
  - intros [c H]. exists (name, File c). split; [reflexivity|].
    apply filter_In. now split.
Qed.

Lemma in_walk_subdirs (top p : string) (es : list (string * Node)) :
  In p (ini_files_of (walk_subdirs top es)) <->
  exists d sub, In (d, Dir sub) es /\
                In p (ini_files_of (walk (OsPath.join top d) (Dir sub))).
Proof.
  induction es as [|[name [c|sub]] es IH].
  - simpl. split; [tauto|]. intros (d & sub & [] & _).
  - unfold walk_subdirs in *. cbn [flat_map fst snd app]. rewrite IH.
    split; intros (d & sub & H & Hp); exists d, sub; (split; [|exact Hp]).
    + now right.
    + destruct H as [H|H]; [discriminate|exact H].
  - unfold walk_subdirs in *. cbn [flat_map fst snd].
    rewrite ini_files_of_app, in_app_iff, IH. split.
    + intros [H|(d & sub' & H & Hp)].
      * exists name, sub. split; [now left|exact H].
      * exists d, sub'. split; [now right|exact Hp].
    + intros (d & sub' & [H|H] & Hp).
      * inversion H; subst. now left.
      * right. now exists d, sub'.
Qed.

(** What the walk collects is exactly the [.ini]-named files below. *)
Lemma in_ini_files_of_walk (n : Node) :
  forall top p,
    In p (ini_files_of (walk top n)) <->
    exists name, file_below top n p name /\ is_ini name = true.
Proof.
  induction n as [c|es IH] using Node_ind_entries; intros top p.
  - simpl. split; [tauto|]. intros (name & H & _). inversion H.
  - rewrite ini_files_of_dir, in_app_iff, in_map_iff, in_walk_subdirs.
    split.
    + intros [(name & <- & H)|(d & sub & H & Hp)].
      * apply filter_In in H as [H Hini].
        apply in_nondirs in H as [c H].
        exists name. split; [now apply fb_here with c|exact Hini].
      * rewrite Forall_forall in IH.
        apply (IH _ H) in Hp as (name & Hb & Hini).
        exists name. split; [now apply fb_deeper with d sub|exact Hini].
    + intros (name & Hb & Hini). inversion Hb; subst.
      * left. exists name. split; [reflexivity|].
        apply filter_In. split; [|exact Hini].
        apply in_nondirs. eauto.
      * right. exists d, sub. split; [assumption|].
        rewrite Forall_forall in IH.
        match goal with H : In (d, Dir sub) es |- _ =>
          apply (IH _ H) end.
        now exists name.
Qed.

Lemma Permutation_filter {A} (f : A -> bool) (l l' : list A) :
  Permutation l l' -> Permutation (filter f l) (filter f l').
Proof.
  induction 1 as [|x l l' _ IH|x y l|l l' l'' _ IH1 _ IH2]; simpl.
  - constructor.
  - destruct (f x); [now constructor|exact IH].
  - destruct (f x), (f y); try reflexivity. apply perm_swap.
  - now transitivity (filter f l').
Qed.

Lemma same_layout_is_dir (n n' : Node) :
  same_layout n n' -> is_dir n = is_dir n'.
Proof. now destruct 1. Qed.

Lemma layout_nondirs (es es' : list (string * Node)) :
  Forall2 layout_entry es es' -> nondirs_of es = nondirs_of es'.
Proof.
  unfold nondirs_of.
  induction 1 as [|[a na] [b nb] es es' [E S] _ IH]; [reflexivity|].
  simpl in E, S. subst b. cbn [filter snd].
  rewrite (same_layout_is_dir _ _ S).
  destruct (is_dir nb); cbn [negb map fst]; now rewrite IH.
Qed.

Lemma walk_subdirs_cons top e es :
  walk_subdirs top (e :: es) =
  match snd e with
  | Dir _ => walk (OsPath.join top (fst e)) (snd e)
  | File _ => []
  end ++ walk_subdirs top es.
Proof. reflexivity. Qed.

(** Reordering the entries of directories, or rewriting the files, only
    permutes what the walk collects. *)
Lemma same_layout_ini_files (n : Node) :
  forall n' top,
    same_layout n n' ->
    Permutation (ini_files_of (walk top n)) (ini_files_of (walk top n')).
Proof.
  induction n as [c|es IH] using Node_ind_entries; intros n' top L;
    inversion L as [? c'|? es' es'' F P]; subst.
  - reflexivity.
  - rewrite !ini_files_of_dir.
    fold layout_entry in F.
    apply Permutation_app.
    + rewrite (layout_nondirs _ _ F).
      apply Permutation_map, Permutation_filter.
      unfold nondirs_of. now apply Permutation_map, Permutation_filter.
    + transitivity (ini_files_of (walk_subdirs top es')).
      * clear L P. induction F as [|[a na] [b nb] es es' [E S] F IHF].
        -- reflexivity.
        -- simpl in E, S. subst b.
           apply Forall_cons_iff in IH as [IHa IHes].
           rewrite !walk_subdirs_cons, !ini_files_of_app.
           apply Permutation_app; [|now apply IHF].
           cbn [fst snd] in *.
           destruct S as [c c'|es0 es1 es2 F0 P0]; [reflexivity|].
           apply IHa. now apply sl_dir with es1.
      * unfold ini_files_of, walk_subdirs.
        now apply Permutation_flat_map, Permutation_flat_map.
Qed.

Lemma same_layout_find (env env' : Env) (root_dir : string) :
  same_layout_at (tree_at env root_dir) (tree_at env' root_dir) ->
  find_model_files env root_dir = find_model_files env' root_dir.
Proof.
  unfold find_model_files, os_walk, same_layout_at. intros L.
  apply sorted_of_perm.
  destruct (tree_at env root_dir), (tree_at env' root_dir);
    try contradiction; [|reflexivity].
  now apply same_layout_ini_files.
Qed.

Lemma find_model_files_not_dir (env : Env) (root_dir : string) :
  (forall es, tree_at env root_dir <> Some (Dir es)) ->
  find_model_files env root_dir = [].
Proof.
  unfold find_model_files, os_walk. intros H.
  destruct (tree_at env root_dir) as [[c|es]|]; try reflexivity.
  now elim (H es).
Qed.

(** *** The files below a directory, one by one *)

Lemma files_below_dir (top : string) (es : list (string * Node)) :
  files_below top (Dir es) = files_below_entries top es.
Proof.
  cbn [files_below]. unfold files_below_entries.
  induction es as [|[name [c|sub]] es IH]; cbn [flat_map fst snd].
  - reflexivity.
  - now rewrite IH.
  - now rewrite IH.
Qed.

Lemma model_paths_app a b :
  model_paths (a ++ b) = model_paths a ++ model_paths b.
Proof. unfold model_paths. now rewrite filter_app, map_app. Qed.

(** [files_below] lists exactly what [file_below] relates. *)
Lemma in_files_below (n : Node) :
  forall top p name,
    In (p, name) (files_below top n) <-> file_below top n p name.
Proof.
  induction n as [c|es IH] using Node_ind_entries; intros top p name.
  - simpl. split; [tauto|]. intros H; inversion H.
  - rewrite files_below_dir. unfold files_below_entries.
    rewrite in_flat_map. rewrite Forall_forall in IH. split.
    + intros ([d [c|sub]] & He & H); cbn [fst snd] in H.
      * destruct H as [H|[]]. inversion H; subst.
        now apply fb_here with c.
      * apply (IH _ He) in H. now apply fb_deeper with d sub.
    + intros Hb. inversion Hb; subst.
      * exists (name, File content). split; [assumption|now left].
      * exists (d, Dir sub). split; [assumption|].
        match goal with H : In (d, Dir sub) es |- _ =>
          now apply (IH _ H) end.
Qed.

Lemma ini_files_entries_perm (top : string) (es : list (string * Node)) :
  Forall (fun e => forall top,
            Permutation (ini_files_of (walk top (snd e)))
                        (model_paths (files_below top (snd e)))) es ->
  Permutation
    (map (OsPath.join top) (filter is_ini (nondirs_of es))
     ++ ini_files_of (walk_subdirs top es))
    (model_paths (files_below_entries top es)).
Proof.
  induction 1 as [|[name [c|sub]] es Hhead _ IH].
  - constructor.
  - unfold nondirs_of, walk_subdirs, files_below_entries in *.
    unfold model_paths in *.
    cbn [filter map flat_map fst snd is_dir negb app] in *.
    unfold is_ini at 1.
    destruct (PyStr.endswith name ".ini"); cbn [map app fst].
    + now apply perm_skip.
    + exact IH.
  - unfold nondirs_of, walk_subdirs, files_below_entries in *.
    cbn [filter map flat_map fst snd is_dir negb] in *.
    rewrite ini_files_of_app, model_paths_app.
    etransitivity; [apply Permutation_app_swap_app|].
    apply Permutation_app; [apply Hhead|exact IH].
Qed.

(** What the walk collects is, file for file, the [.ini]-named files
    below: none is listed twice, none is left out. *)
Lemma ini_files_below_perm (n : Node) :
  forall top,
    Permutation (ini_files_of (walk top n))
                (model_paths (files_below top n)).
Proof.
  induction n as [c|es IH] using Node_ind_entries; intros top.
  - constructor.
  - rewrite ini_files_of_dir, files_below_dir.
    now apply ini_files_entries_perm.
Qed.

Lemma find_model_files_perm_below (env : Env) (root_dir : string) :
  Permutation (find_model_files env root_dir)
              (model_files_below env root_dir).
Proof.
  unfold find_model_files, model_files_below, os_walk.
  etransitivity; [apply sorted_perm|].
  destruct (tree_at env root_dir) as [n|]; [|constructor].
  apply ini_files_below_perm.
Qed.

(** The result is the sort of the files below. *)
Lemma find_model_files_sorts_below (env : Env) (root_dir : string) :
  find_model_files env root_dir = sorted (model_files_below env root_dir).
Proof.
  symmetry. apply ordered_unique.
  - apply sorted_ordered.
  - apply sorted_ordered.
  - etransitivity; [apply sorted_perm|].
    symmetry. apply find_model_files_perm_below.
Qed.

End Discovery.

(** ** The programs run as their restatements say *)

Section Runs.

Lemma bind_run {A B} (m : M A) (k : A -> M B) (s s' : State) (a : A) :
  m s = (Ret a, s') -> bind m k s = k a s'.
Proof. unfold bind. now intros ->. Qed.

Lemma print_run (message : string) (s : State) :
  print message s = (Ret tt, do_event false (EPrint message) s).
Proof. reflexivity. Qed.

Lemma log_run (message : string) (s : State) :
  Simulations.log message s = (Ret tt, do_event true (EPrint message) s).
Proof. reflexivity. Qed.

Lemma emit_run (v : Script) (message : string) (s : State) :
  emit_of v message s = (Ret tt, do_event (mirrors v) (EPrint message) s).
Proof. destruct v; reflexivity. Qed.

Lemma do_events_cons (m : bool) (e : Event) (es : list Event) (s : State) :
  do_events m (e :: es) s = do_events m es (do_event m e s).
Proof. reflexivity. Qed.

Lemma replay_cons (w : World) (e : Event) (es : list Event) :
  replay w (e :: es) = replay (effect e w) es.
Proof. reflexivity. Qed.

Lemma do_events_app (m : bool) (a b : list Event) (s : State) :
  do_events m (a ++ b) s = do_events m b (do_events m a s).
Proof. apply fold_left_app. Qed.

Lemma do_events_with_results (m : bool) (es : list Event) :
  forall rs s,
    do_events m es (with_results rs s) = with_results rs (do_events m es s).
Proof.
  induction es as [|e es IH]; intros rs s; [reflexivity|].
  rewrite !do_events_cons.
  change (do_event m e (with_results rs s))
    with (with_results rs (do_event m e s)).
  apply IH.
Qed.

Lemma with_results_twice (rs rs' : list (string * bool * string)) (s : State) :
  with_results rs (with_results rs' s) = with_results rs s.
Proof. reflexivity. Qed.

Lemma with_results_same (s : State) : with_results (results s) s = s.
Proof. now destruct s. Qed.

(** Projections of the state after a sequence of effects. *)
Lemma world_do_events (m : bool) (es : list Event) :
  forall s, world (do_events m es s) = replay (world s) es.
Proof.
  induction es as [|e es IH]; intros s; [reflexivity|].
  rewrite do_events_cons, replay_cons. apply IH.
Qed.

Lemma trace_do_events (m : bool) (es : list Event) :
  forall s, trace (do_events m es s) = trace s ++ es.
Proof.
  induction es as [|e es IH]; intros s.
  - cbn. now rewrite app_nil_r.
  - rewrite do_events_cons, IH. cbn [do_event trace].
    now rewrite <- app_assoc.
Qed.

Lemma results_do_events (m : bool) (es : list Event) :
  forall s, results (do_events m es s) = results s.
Proof.
  induction es as [|e es IH]; intros s; [reflexivity|].
  now rewrite do_events_cons, IH.
Qed.

Lemma output_lines_do_events (es : list Event) :
  forall s, output_lines (do_events true es s) = output_lines s ++ printed es.
Proof.
  induction es as [|e es IH]; intros s.
  - cbn. now rewrite app_nil_r.
  - rewrite do_events_cons, IH.
    destruct e; cbn [do_event output_lines printed flat_map app];
      now rewrite <- ?app_assoc.
Qed.


Lemma console_replay (es : list Event) :
  forall w, console (replay w es) = console w ++ printed es.
Proof.
  induction es as [|e es IH]; intros w.
  - cbn. now rewrite app_nil_r.
  - rewrite replay_cons, IH.
    destruct e; cbn [effect console printed flat_map app];
      now rewrite <- ?app_assoc.
Qed.

(** The subprocess calls started by a sequence of effects. *)
Lemma calls_replay (es : list Event) :
  forall w,
    calls (replay w es) = calls w ++ spawn_calls es.
Proof.
  induction es as [|e es IH]; intros w.
  - cbn. now rewrite app_nil_r.
  - rewrite replay_cons, IH.
    destruct e; cbn [effect calls spawn_calls flat_map app];
      now rewrite <- ?app_assoc.
Qed.

(** [verify_model] returns [verdict], never raises, and its only
    effects are the subprocess call and the end of its child. *)
Lemma verify_model_run (v : Script) (env : Env) (m : bool)
    (model_path mbal_filename : string) (s : State) :
  verify_model_of v env model_path mbal_filename s =
  (Ret (verdict v env (calls (world s)) model_path mbal_filename),
   do_events m
     (engine_events v env (calls (world s)) model_path mbal_filename)
     s).
Proof.
  unfold verdict, engine_events.
  destruct v;
    unfold verify_model_of, RegressionTests.verify_model,
      Simulations.verify_model, verify_model_with, bind, os_path_exists,
      try_except, subprocess_run, engine_call_of, mbal_path_of;
    cbn [app];
    destruct (path_exists env (calls (world s)) _); cbn [negb];
    try (now destruct s);
    match goal with |- context [engine ?e ?h ?c] =>
      destruct (engine e h c) as [rc out err| |d] end;
    cbn [perform returncode stdout stderr child_end];
    try reflexivity;
    destruct (rc =? 0)%Z; try reflexivity;
    destruct (PyStr.contains _ out); reflexivity.
Qed.

End Runs.

Section Loops.

Variables (v : Script) (env : Env) (root_dir : string).

(** One iteration of the verification loop. *)
Lemma model_step_run (p : string) (s : State) :
  (let rel_path := relpath env p root_dir in
   emit_of v ("Verifying: " +++ rel_path) ;;
   '(success, message) <- verify_model_of v env p (default_mbal_of v) ;;
   rs <- get_results ;;
   set_results (rs ++ [(rel_path, success, message)]) ;;
   (if success : bool then emit_of v (tick +++ message)
    else emit_of v (cross +++ message)) ;;
   emit_of v "") s =
  (Ret tt,
   with_results
     (results s ++
      [(relpath env p root_dir,
        fst (verdict v env (calls (world s)) p (default_mbal_of v)),
        snd (verdict v env (calls (world s)) p (default_mbal_of v)))])
     (do_events (mirrors v)
        (model_events v env (calls (world s)) root_dir p) s)).
Proof.
  cbv zeta. unfold bind, model_events.
  rewrite emit_run, (verify_model_run v env (mirrors v)).
  change (calls (world (do_event (mirrors v) (EPrint ?m) s)))
    with (calls (world s)).
  destruct (verdict v env (calls (world s)) p (default_mbal_of v))
    as [success message].
  unfold get_results, set_results, engine_events.
  destruct (path_exists env (calls (world s)) _), success;
    rewrite !emit_run; reflexivity.
Qed.

Lemma calls_after_model (p : string) (s : State) (rs : list (string * bool * string)) :
  calls (world (with_results rs
                  (do_events (mirrors v)
                     (model_events v env (calls (world s)) root_dir p) s))) =
  calls (world s) ++ spawned v env (calls (world s)) p (default_mbal_of v).
Proof.
  cbn [with_results world]. rewrite world_do_events, calls_replay.
  f_equal. unfold model_events, spawned, engine_events.
  destruct (verdict v env (calls (world s)) p (default_mbal_of v)).
  destruct (path_exists env (calls (world s)) _); reflexivity.
Qed.

(** The whole verification loop: it never raises, appends one entry to
    [results] per model file, and performs [loop_events]. *)
Lemma verify_each_run (model_files : list string) :
  forall s,
    verify_each (emit_of v)
      (fun p => verify_model_of v env p (default_mbal_of v))
      env root_dir model_files s =
    (Ret tt,
     with_results
       (results s ++ outcomes v env (calls (world s)) root_dir model_files)
       (do_events (mirrors v)
          (loop_events v env (calls (world s)) root_dir model_files) s)).
Proof.
  unfold verify_each.
  induction model_files as [|p ps IH]; intros s.
  - cbn. now rewrite app_nil_r, with_results_same.
  - cbn [for_each loop_events outcomes].
    erewrite bind_run by apply model_step_run.
    rewrite IH, calls_after_model.
    f_equal.
    rewrite do_events_with_results, with_results_twice, do_events_app.
    cbn [with_results results]. now rewrite <- app_assoc.
Qed.

(** The loop that lists the failed models. *)
Lemma list_failed_run (rs : list (string * bool * string)) :
  forall s,
    list_failed (emit_of v) rs s =
    (Ret tt, do_events (mirrors v) (failed_events rs) s).
Proof.
  unfold list_failed.
  induction rs as [|[[rel_path success] message] rs IH]; intros s;
    [reflexivity|].
  cbn [for_each failed_events flat_map]. rewrite do_events_app.
  unfold bind at 1.
  destruct success; cbn [success_of fst snd negb].
  - apply IH.
  - unfold bind at 1. rewrite !emit_run. apply IH.
Qed.

End Loops.

Section MainRun.

Variables (env : Env) (log0 : option string).

Lemma count_passed_from (rs : list (string * bool * string)) :
  forall acc,
    fold_left (fun acc '(_, success, _) =>
                 if success : bool then (acc + 1)%Z else acc) rs acc
    = (acc + count_passed rs)%Z.
Proof.
  unfold count_passed.
  induction rs as [|[[p b] m] rs IH]; intros acc; cbn [fold_left].
  - lia.
  - rewrite IH, (IH (if b then _ else _)). destruct b; lia.
Qed.

Lemma count_passed_cons r rs :
  count_passed (r :: rs) =
  ((if success_of r then 1 else 0) + count_passed rs)%Z.
Proof.
  destruct r as [[p b] m]. unfold count_passed at 1. cbn [fold_left].
  rewrite count_passed_from. unfold success_of. cbn. destruct b; lia.
Qed.

Lemma count_passed_bounds (rs : list (string * bool * string)) :
  (0 <= count_passed rs <= len rs)%Z.
Proof.
  induction rs as [|r rs IH]; [cbn; lia|].
  rewrite count_passed_cons. unfold len in *. cbn [List.length].
  destruct (success_of r); lia.
Qed.

Variable v : Script.

Local Abbreviation St := (reached v log0).

Lemma reached_start : start log0 = St [] [].
Proof. reflexivity. Qed.

Lemma reached_snoc rs es e :
  do_event (mirrors v) e (St rs es) = St rs (es ++ [e]).
Proof. unfold reached. now rewrite do_events_app. Qed.

Lemma emit_reached rs es message :
  emit_of v message (St rs es) = (Ret tt, St rs (es ++ [EPrint message])).
Proof. rewrite emit_run. f_equal. apply reached_snoc. Qed.

Lemma perform_reached rs es e :
  (forall line, e <> EPrint line) ->
  perform e (St rs es) = (Ret tt, St rs (es ++ [e])).
Proof.
  intros H. rewrite <- reached_snoc. unfold perform. f_equal.
  destruct e; try reflexivity. now elim (H line).
Qed.

Lemma set_results_reached rs es rs' :
  set_results rs' (St rs es) = (Ret tt, St rs' es).
Proof. reflexivity. Qed.

Lemma get_results_reached rs es :
  get_results (St rs es) = (Ret rs, St rs es).
Proof. reflexivity. Qed.

Lemma calls_reached rs es : calls (world (St rs es)) = spawn_calls es.
Proof.
  unfold reached. cbn [with_results world].
  now rewrite world_do_events, calls_replay.
Qed.

Lemma verify_each_reached rs es root_dir model_files :
  verify_each (emit_of v)
    (fun p => verify_model_of v env p (default_mbal_of v))
    env root_dir model_files (St rs es) =
  (Ret tt,
   St (rs ++ outcomes v env (spawn_calls es) root_dir model_files)
      (es ++ loop_events v env (spawn_calls es) root_dir model_files)).
Proof.
  rewrite verify_each_run, calls_reached. f_equal. unfold reached.
  now rewrite do_events_with_results, with_results_twice, do_events_app.
Qed.

Lemma list_failed_reached rs es rs' :
  list_failed (emit_of v) rs' (St rs es) =
  (Ret tt, St rs (es ++ failed_events rs')).
Proof.
  rewrite list_failed_run. f_equal. unfold reached.
  now rewrite do_events_with_results, do_events_app.
Qed.

End MainRun.

Section WholeRun.

Variables (env : Env) (log0 : option string).

Ltac list_norm :=
  repeat first [rewrite <- app_assoc | progress cbn [app]].

Ltac emits v :=
  repeat (erewrite bind_run by apply (emit_reached log0 v)).

(** A run of the first script ends by raising [SystemExit] with
    [main_exit_code], in the state [main_final]. *)
Lemma main_run_base :
  RegressionTests.main env (start log0) =
  (Raise (SystemExit (main_exit_code Base env)), main_final Base env log0).
Proof.
  unfold RegressionTests.main, main_exit_code, main_final, main_trace,
    body_events, closing_events, opening_events, removal_events,
    main_results.
  cbv zeta.
  change print with (emit_of Base).
  change (fun p => RegressionTests.verify_model env p
                     RegressionTests.default_mbal_filename)
    with (fun p => verify_model_of Base env p (default_mbal_of Base)).
  rewrite (reached_start log0 Base).
  destruct (find_model_files env (root_dir_of env)) as [|p ps] eqn:Efiles.
  - emits Base. unfold bind. rewrite emit_reached. reflexivity.
  - emits Base.
    erewrite bind_run by reflexivity.
    emits Base.
    erewrite bind_run by apply set_results_reached.
    erewrite bind_run by apply verify_each_reached.
    cbn [app spawn_calls flat_map].
    emits Base.
    erewrite bind_run by apply get_results_reached.
    emits Base.
    unfold summary_events. cbv zeta. cbn [mirrors].
    destruct (len _ - count_passed _ >? 0)%Z.
    + emits Base.
      erewrite bind_run by apply list_failed_reached.
      unfold sys_exit, raise. do 2 f_equal.
      rewrite ?app_nil_r, <- ?app_assoc. reflexivity.
    + emits Base.
      unfold sys_exit, raise. do 2 f_equal.
      rewrite ?app_nil_r, <- ?app_assoc. reflexivity.
Qed.

Lemma get_output_lines_reached rs es :
  get_output_lines (reached Logging log0 rs es) =
  (Ret (printed es), reached Logging log0 rs es).
Proof.
  unfold get_output_lines. f_equal. unfold reached.
  cbn [with_results output_lines mirrors].
  now rewrite output_lines_do_events.
Qed.

(** An effect that prints nothing adds no line. *)
Lemma printed_snoc_silent es e :
  (match e with EPrint _ => false | _ => true end) = true ->
  printed (es ++ [e]) = printed es.
Proof.
  intros He. unfold printed. rewrite flat_map_app. cbn [flat_map].
  destruct e; try discriminate; now rewrite !app_nil_r.
Qed.

Lemma main_opening_logging :
  (present <- Simulations.log_file_exists ;;
   (if present : bool then perform ERemoveLog else ret tt) ;;
   set_output_lines []) (start log0) =
  (Ret tt,
   reached Logging log0 []
     (match log0 with Some _ => [ERemoveLog] | None => [] end)).
Proof. destruct log0; reflexivity. Qed.

Lemma bind_assoc {A B C} (m : M A) (k : A -> M B) (h : B -> M C) (s : State) :
  bind (bind m k) h s = bind m (fun a => bind (k a) h) s.
Proof. unfold bind. destruct (m s) as [[a|e] s']; reflexivity. Qed.

(** A run of the logging script ends likewise. *)
Lemma main_run_logging :
  Simulations.main env (start log0) =
  (Raise (SystemExit (main_exit_code Logging env)),
   main_final Logging env log0).
Proof.
  unfold Simulations.main, main_exit_code, main_final, main_trace,
    body_events, closing_events, opening_events, removal_events,
    main_results.
  cbv zeta.
  change Simulations.log with (emit_of Logging).
  change (fun p => Simulations.verify_model env p
                     Simulations.default_mbal_filename)
    with (fun p => verify_model_of Logging env p (default_mbal_of Logging)).
  rewrite <- (bind_assoc Simulations.log_file_exists).
  rewrite <- (bind_assoc (bind _ _)).
  erewrite bind_run by apply main_opening_logging.
  set (opening := match log0 with Some _ => [ERemoveLog] | None => [] end).
  assert (Hspawn : forall es, spawn_calls (opening ++ es) = spawn_calls es)
    by (intros es; subst opening; now destruct log0).
  destruct (find_model_files env (root_dir_of env)) as [|p ps] eqn:Efiles.
  - emits Logging. unfold bind. rewrite emit_reached.
    unfold sys_exit, raise. do 2 f_equal.
    rewrite <- ?app_assoc. reflexivity.
  - emits Logging.
    erewrite bind_run by reflexivity.
    emits Logging.
    erewrite bind_run by apply set_results_reached.
    erewrite bind_run by apply verify_each_reached.
    rewrite <- ?app_assoc, !Hspawn.
    cbn [app spawn_calls flat_map].
    emits Logging.
    erewrite bind_run by apply get_results_reached.
    emits Logging.
    unfold summary_events. cbv zeta. cbn [mirrors].
    destruct (len _ - count_passed _ >? 0)%Z.
    + rewrite bind_assoc. emits Logging.
      erewrite bind_run by apply list_failed_reached.
      list_norm.
      erewrite bind_run by (apply perform_reached; discriminate).
      erewrite bind_run by apply get_output_lines_reached.
      erewrite bind_run by (apply perform_reached; discriminate).
      unfold sys_exit, raise. do 2 f_equal.
      rewrite printed_snoc_silent by reflexivity.
      list_norm. reflexivity.
    + emits Logging.
      list_norm.
      erewrite bind_run by (apply perform_reached; discriminate).
      erewrite bind_run by apply get_output_lines_reached.
      erewrite bind_run by (apply perform_reached; discriminate).
      unfold sys_exit, raise. do 2 f_equal.
      rewrite printed_snoc_silent by reflexivity.
      list_norm. reflexivity.
Qed.

(** Either script, from the start of a run. *)
Lemma main_run (v : Script) :
  main_of v env (start log0) =
  (Raise (SystemExit (main_exit_code v env)), main_final v env log0).
Proof. destruct v; [apply main_run_base|apply main_run_logging]. Qed.

End WholeRun.

(** ** Facts about the effects of a run *)

Section TraceFacts.

Lemma printed_app (a b : list Event) :
  printed (a ++ b) = printed a ++ printed b.
Proof. apply flat_map_app. Qed.

Lemma quiet_keeps_log (es : list Event) :
  forall w, forallb quiet es = true -> log_file (replay w es) = log_file w.
Proof.
  induction es as [|e es IH]; intros w H; [reflexivity|].
  cbn [forallb] in H. apply andb_true_iff in H as [He Hes].
  rewrite replay_cons, IH by exact Hes. now destruct e.
Qed.


Lemma quiet_model_events v env hist root_dir p :
  forallb quiet (model_events v env hist root_dir p) = true.
Proof.
  unfold model_events, engine_events.
  destruct (verdict v env hist p (default_mbal_of v)).
  now destruct (path_exists env hist _).
Qed.

Lemma quiet_loop_events v env root_dir model_files :
  forall hist,
    forallb quiet (loop_events v env hist root_dir model_files) = true.
Proof.
  induction model_files as [|p ps IH]; intros hist; [reflexivity|].
  cbn [loop_events]. now rewrite forallb_app, quiet_model_events, IH.
Qed.

Lemma quiet_failed_events rs : forallb quiet (failed_events rs) = true.
Proof.
  induction rs as [|r rs IH]; [reflexivity|].
  unfold failed_events in *. cbn [flat_map]. rewrite forallb_app, IH.
  now destruct (negb (success_of r)).
Qed.

Lemma quiet_summary_events v env rs :
  forallb quiet (summary_events v env rs) = true.
Proof.
  unfold summary_events. cbv zeta.
  rewrite !forallb_app.
  destruct (mirrors v), (len rs - count_passed rs >? 0)%Z;
    cbn [forallb quiet andb]; now rewrite ?quiet_failed_events.
Qed.



End TraceFacts.

Section Accounting.

Variables (v : Script) (env : Env) (root_dir : string).

Lemma outcomes_length (model_files : list string) :
  forall hist,
    List.length (outcomes v env hist root_dir model_files)
    = List.length model_files.
Proof.
  induction model_files as [|p ps IH]; intros hist; cbn; [|rewrite IH];
    reflexivity.
Qed.

Lemma outcomes_paths (model_files : list string) :
  forall hist,
    map path_of (outcomes v env hist root_dir model_files)
    = map (fun p => relpath env p root_dir) model_files.
Proof.
  induction model_files as [|p ps IH]; intros hist; [reflexivity|].
  cbn [outcomes map]. now rewrite IH.
Qed.

Lemma count_passed_all (rs : list (string * bool * string)) :
  count_passed rs = len rs <-> Forall (fun r => success_of r = true) rs.
Proof.
  induction rs as [|r rs IH]; [now split|].
  rewrite count_passed_cons. unfold len in *. cbn [List.length].
  pose proof (count_passed_bounds rs) as B. unfold len in B.
  split.
  - intros H. destruct (success_of r) eqn:E; [|lia].
    constructor; [exact E|apply IH; lia].
  - intros H. apply Forall_cons_iff in H as [E H].
    rewrite E. apply IH in H. lia.
Qed.

Lemma not_all_passed (rs : list (string * bool * string)) :
  ~ Forall (fun r => success_of r = true) rs <->
  Exists (fun r => success_of r = false) rs.
Proof.
  induction rs as [|r rs IH].
  - split; [intros H; now elim H|intros H; inversion H].
  - split.
    + intros H. destruct (success_of r) eqn:E; [|now left].
      right. apply IH. intros F. apply H. now constructor.
    + intros H F. apply Forall_cons_iff in F as [E F].
      apply Exists_cons in H as [H|H]; [congruence|].
      now apply IH in H.
Qed.

End Accounting.

(** * The claims *)

(** ** Evaluation on the sample environment *)

Example sample_discovery :
  find_model_files Sample.env "/t"
  = ["/t/a/m1.ini"; "/t/a/sub/slow.ini"; "/t/b/m2.ini"; "/t/top.ini"].
Proof. reflexivity. Qed.

Example sample_run_results :
  results (snd (Simulations.main Sample.env (start (Some "old"))))
  = [ ("a/m1.ini", true, "VERIFIED!");
      ("a/sub/slow.ini", false,
       "Mass balance file not found: /t/a/sub/mbal.txt");
      ("b/m2.ini", false, "Mass balance file not found: /t/b/mbal.txt");
      ("top.ini", false, "Failed: boom") ].
Proof. reflexivity. Qed.

Example sample_run_exit :
  fst (RegressionTests.main Sample.env (start None)) = Raise (SystemExit 1)
  /\ fst (RegressionTests.main Sample.env_green (start None))
     = Raise (SystemExit 0)
  /\ fst (Simulations.main Sample.env_green (start None))
     = Raise (SystemExit 0).
Proof. repeat split; reflexivity. Qed.

Example sample_run_summary :
  let lines := console (world (snd (RegressionTests.main Sample.env
                                      (start None)))) in
  In "Total: 4" lines /\ In "Passed: 1" lines /\ In "Failed: 3" lines
  /\ In "  - a/sub/slow.ini" lines.
Proof. cbv zeta. vm_compute. tauto. Qed.

Example sample_paths :
  OsPath.dirname "/t/a/m1.ini" = "/t/a"
  /\ OsPath.dirname "m1.ini" = ""
  /\ OsPath.dirname "/m1.ini" = "/"
  /\ OsPath.dirname "//a//b" = "//a"
  /\ OsPath.basename "/t/a/m1.ini" = "m1.ini"
  /\ OsPath.join "" "x" = "x"
  /\ OsPath.join "/" "x" = "/x"
  /\ OsPath.join "a" "/x" = "/x"
  /\ OsPath.join "/t/a" "mbal.txt" = "/t/a/mbal.txt".
Proof. repeat split; reflexivity. Qed.

(** ** Classification of one model: [verify_model] *)

Lemma join_plain (d f : string) :
  PyStr.truthy d = true ->
  PyStr.endswith d "/" = false ->
  PyStr.startswith f "/" = false ->
  OsPath.join d f = d +++ "/" +++ f.
Proof.
  unfold OsPath.join, OsPath.sep. intros Hd He Hf.
  now rewrite Hf, Hd, He.
Qed.

(** C1.  When the mass-balance file exists and the engine exits with
    status zero: if its standard output contains ["VERIFIED!"] the
    outcome is success with message exactly ["VERIFIED!"]; if not, the
    outcome is a failure whose message includes the standard output. *)
Theorem verify_model_sentinel (v : Script) (env : Env)
    (model_path mbal_filename : string) (s : State) (out err : string) :
  path_exists env (calls (world s)) (mbal_path_of model_path mbal_filename)
  = true ->
  engine env (calls (world s)) (engine_call_of v model_path mbal_filename)
  = Completed 0 out err ->
  (PyStr.contains "VERIFIED!" out = true ->
     fst (verify_model_of v env model_path mbal_filename s)
     = Ret (true, "VERIFIED!"))
  /\ (PyStr.contains "VERIFIED!" out = false ->
        exists message,
          fst (verify_model_of v env model_path mbal_filename s)
          = Ret (false, message)
          /\ message = "Verification unclear: " +++ out
          /\ PyStr.contains out message = true).
Proof.
  intros Hp He. rewrite (verify_model_run v env false).
  unfold verdict. rewrite Hp, He. cbn [fst Z.eqb].
  split; intros Hc; rewrite Hc; [reflexivity|].
  eexists. repeat split. apply contains_suffix.
Qed.

(** C2.  When the mass-balance file, looked up at the model's directory
    joined with the reference file name
    ([os.path.join(os.path.dirname(model_path), mbal_filename)]), does
    not exist, the outcome is a failure whose message names that path,
    and nothing else happens: the state is unchanged, so no subprocess is
    started. *)
Theorem verify_model_missing_reference (v : Script) (env : Env)
    (model_path mbal_filename : string) (s : State) :
  path_exists env (calls (world s)) (mbal_path_of model_path mbal_filename)
  = false ->
  (exists message,
     verify_model_of v env model_path mbal_filename s
     = (Ret (false, message), s)
     /\ message = "Mass balance file not found: "
                  +++ mbal_path_of model_path mbal_filename
     /\ PyStr.contains (mbal_path_of model_path mbal_filename) message = true)
  /\ calls (world (snd (verify_model_of v env model_path mbal_filename s)))
     = calls (world s)
  /\ spawn_calls
       (trace (snd (verify_model_of v env model_path mbal_filename s)))
     = spawn_calls (trace s).
Proof.
  intros Hp. rewrite (verify_model_run v env false).
  unfold verdict, engine_events. rewrite Hp. cbn [map do_events fold_left snd].
  repeat split. eexists. repeat split. apply contains_suffix.
Qed.

(** C6, as amended.  Every engine subprocess is started with a time
    limit of exactly 300 seconds.  When the limit expires the child is
    forcibly terminated: the call is followed at once by the kill of its
    child, nothing else happens in between, and the outcome is a failure
    whose message is ["Timeout: Model took too long to run"].  Whatever
    the outcome, [verify_model] leaves no child running that was not
    running before. *)
Theorem verify_model_timeout (v : Script) (env : Env)
    (model_path mbal_filename : string) (s : State) :
  path_exists env (calls (world s)) (mbal_path_of model_path mbal_filename)
  = true ->
  calls (world (snd (verify_model_of v env model_path mbal_filename s)))
  = calls (world s) ++ [engine_call_of v model_path mbal_filename]
  /\ timeout (engine_call_of v model_path mbal_filename) = 300%Z
  /\ running (world (snd (verify_model_of v env model_path mbal_filename s)))
     = running (world s)
  /\ (engine env (calls (world s))
        (engine_call_of v model_path mbal_filename) = TimedOut ->
      fst (verify_model_of v env model_path mbal_filename s)
      = Ret (false, "Timeout: Model took too long to run")
      /\ trace (snd (verify_model_of v env model_path mbal_filename s))
         = trace s ++ [ESpawn (engine_call_of v model_path mbal_filename);
                       EChildEnd (engine_call_of v model_path mbal_filename)
                         Killed]
      /\ running
           (replay (world s)
              [ESpawn (engine_call_of v model_path mbal_filename)])
         = running (world s) ++ [engine_call_of v model_path mbal_filename]
      /\ running
           (replay (world s)
              [ESpawn (engine_call_of v model_path mbal_filename);
               EChildEnd (engine_call_of v model_path mbal_filename) Killed])
         = running (world s)).
Proof.
  intros Hp. rewrite (verify_model_run v env false).
  unfold verdict, engine_events. rewrite Hp. cbn [fst snd].
  rewrite world_do_events, trace_do_events.
  split; [|split; [|split]].
  - now rewrite calls_replay.
  - reflexivity.
  - cbn. apply removelast_last.
  - intros He. rewrite He. cbn [child_end].
    split; [reflexivity|]. split; [reflexivity|]. split; [reflexivity|].
    cbn. apply removelast_last.
Qed.

(** C7, as amended.  When the engine exits with a non-zero status the
    outcome is a failure whose message is ["Failed: "] followed by the
    captured standard error if it is non-empty, otherwise by the
    captured standard output. *)
Theorem verify_model_nonzero_exit (v : Script) (env : Env)
    (model_path mbal_filename : string) (s : State)
    (rc : Z) (out err : string) :
  path_exists env (calls (world s)) (mbal_path_of model_path mbal_filename)
  = true ->
  engine env (calls (world s)) (engine_call_of v model_path mbal_filename)
  = Completed rc out err ->
  rc <> 0%Z ->
  fst (verify_model_of v env model_path mbal_filename s)
  = Ret (false, "Failed: " +++ (if PyStr.truthy err then err else out))
  /\ (err <> "" ->
      fst (verify_model_of v env model_path mbal_filename s)
      = Ret (false, "Failed: " +++ err))
  /\ (err = "" ->
      fst (verify_model_of v env model_path mbal_filename s)
      = Ret (false, "Failed: " +++ out)).
Proof.
  intros Hp He Hrc. rewrite (verify_model_run v env false).
  unfold verdict. rewrite Hp, He.
  apply Z.eqb_neq in Hrc. rewrite Hrc. cbn [fst].
  repeat split.
  - intros Herr. destruct err; [now elim Herr|reflexivity].
  - now intros ->.
Qed.

Lemma verify_model_sentinel_witness :
  fst (verify_model_of Logging Sample.env "/t/a/m1.ini" "mbal.txt"
         (start None)) = Ret (true, "VERIFIED!")
  /\ exists message,
       fst (verify_model_of Base Sample.env "/t/b/m2.ini"
              "mbal_for_verification.txt" (start None))
       = Ret (false, message)
       /\ message = "Verification unclear: simulation finished"
       /\ PyStr.contains "simulation finished" message = true.
Proof.
  split.
  - exact (proj1 (verify_model_sentinel Logging Sample.env "/t/a/m1.ini"
                    "mbal.txt" (start None) "Mass balance VERIFIED! ok" ""
                    eq_refl eq_refl) eq_refl).
  - exact (proj2 (verify_model_sentinel Base Sample.env "/t/b/m2.ini"
                    "mbal_for_verification.txt" (start None)
                    "simulation finished" "" eq_refl eq_refl) eq_refl).
Defined.

Lemma verify_model_missing_reference_witness :
  (exists message,
     verify_model_of Logging Sample.env "/t/b/m2.ini" "mbal.txt" (start None)
     = (Ret (false, message), start None)
     /\ message = "Mass balance file not found: /t/b/mbal.txt"
     /\ PyStr.contains "/t/b/mbal.txt" message = true)
  /\ calls (world (snd (verify_model_of Logging Sample.env "/t/b/m2.ini"
                          "mbal.txt" (start None)))) = []
  /\ spawn_calls (trace (snd (verify_model_of Logging Sample.env "/t/b/m2.ini"
                                "mbal.txt" (start None)))) = [].
Proof.
  exact (verify_model_missing_reference Logging Sample.env "/t/b/m2.ini"
           "mbal.txt" (start None) eq_refl).
Defined.

(** C6, as stated, fails: on a timeout the message is not
    ["execution exceeded the time limit"]. *)
Lemma verify_model_timeout_counterexample :
  path_exists Sample.env [] (mbal_path_of "/t/a/slow.ini" "mbal.txt") = true
  /\ engine Sample.env [] (engine_call_of Logging "/t/a/slow.ini" "mbal.txt")
     = TimedOut
  /\ fst (Simulations.verify_model Sample.env "/t/a/slow.ini" "mbal.txt"
            (start None))
     <> Ret (false, "execution exceeded the time limit").
Proof. repeat split. discriminate. Qed.

Lemma verify_model_timeout_witness :
  calls (world (snd (verify_model_of Logging Sample.env "/t/a/slow.ini"
                       "mbal.txt" (start None))))
  = [mkCall ["kalix"; "simulate"; "slow.ini"; "-v"; "mbal.txt"]
            "/t/a" true true 300]
  /\ timeout (engine_call_of Logging "/t/a/slow.ini" "mbal.txt") = 300%Z
  /\ running (world (snd (verify_model_of Logging Sample.env "/t/a/slow.ini"
                            "mbal.txt" (start None)))) = []
  /\ fst (verify_model_of Logging Sample.env "/t/a/slow.ini" "mbal.txt"
            (start None))
     = Ret (false, "Timeout: Model took too long to run")
  /\ trace (snd (verify_model_of Logging Sample.env "/t/a/slow.ini"
                   "mbal.txt" (start None)))
     = [ESpawn (engine_call_of Logging "/t/a/slow.ini" "mbal.txt");
        EChildEnd (engine_call_of Logging "/t/a/slow.ini" "mbal.txt") Killed].
Proof.
  destruct (verify_model_timeout Logging Sample.env "/t/a/slow.ini"
              "mbal.txt" (start None) eq_refl)
    as (Hcalls & Hlimit & Hnone & Hout).
  destruct (Hout eq_refl) as (Hmsg & Htrace & _).
  exact (conj Hcalls (conj Hlimit (conj Hnone (conj Hmsg Htrace)))).
Defined.

(** C7, as stated, fails: the message is not the captured standard error
    itself. *)
Lemma verify_model_nonzero_exit_counterexample :
  path_exists Sample.env [] (mbal_path_of "/t/top.ini" "mbal.txt") = true
  /\ engine Sample.env [] (engine_call_of Logging "/t/top.ini" "mbal.txt")
     = Completed 2 "out" "boom"
  /\ fst (Simulations.verify_model Sample.env "/t/top.ini" "mbal.txt"
            (start None))
     <> Ret (false, "boom").
Proof. repeat split. discriminate. Qed.

Lemma verify_model_nonzero_exit_witness :
  fst (verify_model_of Logging Sample.env "/t/top.ini" "mbal.txt" (start None))
  = Ret (false, "Failed: boom")
  /\ fst (verify_model_of Logging Sample.env "/t/a/quiet.ini" "mbal.txt"
            (start None))
     = Ret (false, "Failed: only on stdout").
Proof.
  split.
  - refine (proj1 (proj2 (verify_model_nonzero_exit Logging Sample.env
                            "/t/top.ini" "mbal.txt" (start None) 2 "out" "boom"
                            eq_refl eq_refl _)) _); discriminate.
  - refine (proj2 (proj2 (verify_model_nonzero_exit Logging Sample.env
                            "/t/a/quiet.ini" "mbal.txt" (start None) 1
                            "only on stdout" "" eq_refl eq_refl _)) eq_refl).
    discriminate.
Defined.

(** C8.  [verify_model] always returns an outcome and never raises: a
    fault while spawning or communicating with the engine becomes a
    failure whose message describes it, and the verification loop, from
    any state and whatever the engine does, runs to its end with one
    more entry in [results] for each model file. *)
Theorem verify_model_contains_faults (v : Script) (env : Env)
    (model_path mbal_filename : string) (s : State) :
  (exists outcome s',
     verify_model_of v env model_path mbal_filename s = (Ret outcome, s'))
  /\ (forall description,
        path_exists env (calls (world s))
          (mbal_path_of model_path mbal_filename) = true ->
        engine env (calls (world s))
          (engine_call_of v model_path mbal_filename) = Fault description ->
        fst (verify_model_of v env model_path mbal_filename s)
        = Ret (false, "Error: " +++ description)
        /\ PyStr.contains description ("Error: " +++ description) = true)
  /\ (forall root_dir model_files,
        exists s',
          verify_each (emit_of v)
            (fun p => verify_model_of v env p (default_mbal_of v))
            env root_dir model_files s = (Ret tt, s')
          /\ List.length (results s')
             = (List.length (results s) + List.length model_files)%nat
          /\ map path_of (results s')
             = map path_of (results s)
               ++ map (fun p => relpath env p root_dir) model_files).
Proof.
  repeat split.
  - rewrite (verify_model_run v env false). eauto.
  - rewrite (verify_model_run v env false). unfold verdict.
    now rewrite H, H0.
  - apply contains_suffix.
  - intros root_dir model_files. rewrite verify_each_run.
    eexists. split; [reflexivity|]. cbn [with_results results].
    now rewrite length_app, outcomes_length, map_app, outcomes_paths.
Qed.

Lemma verify_model_contains_faults_witness :
  fst (verify_model_of Base Sample.env "/t/a/bad.ini"
         "mbal_for_verification.txt" (start None))
  = Ret (false, "Error: [Errno 2] No such file or directory: 'kalix'").
Proof.
  exact (proj1 (proj1 (proj2 (verify_model_contains_faults Base Sample.env
                                "/t/a/bad.ini" "mbal_for_verification.txt"
                                (start None)))
                  "[Errno 2] No such file or directory: 'kalix'"
                  eq_refl eq_refl)).
Defined.

(** ** A whole run: [main] *)

Section WholeRunFacts.

Variables (v : Script) (env : Env) (log0 : option string).

Lemma main_final_trace : trace (main_final v env log0) = main_trace v env log0.
Proof.
  unfold main_final, reached. cbn [with_results trace].
  now rewrite trace_do_events.
Qed.

Lemma main_final_world :
  world (main_final v env log0)
  = replay (world (start log0)) (main_trace v env log0).
Proof.
  unfold main_final, reached. cbn [with_results world].
  now rewrite world_do_events.
Qed.

Lemma main_final_console :
  console (world (main_final v env log0)) = printed (main_trace v env log0).
Proof. now rewrite main_final_world, console_replay. Qed.

Lemma main_final_calls :
  calls (world (main_final v env log0)) = spawn_calls (main_trace v env log0).
Proof. now rewrite main_final_world, calls_replay. Qed.

Lemma printed_opening_events :
  printed (opening_events v env log0)
  = ["Searching for model files in: " +++ root_dir_of env; rule].
Proof. unfold opening_events, removal_events. now destruct v, log0. Qed.

Lemma printed_closing_events (body : list Event) :
  printed (closing_events v body) = [].
Proof. unfold closing_events. now destruct (mirrors v). Qed.

Lemma printed_summary_events (rs : list (string * bool * string)) :
  printed (summary_events v env rs)
  = ([rule; "SUMMARY"; rule]
     ++ (if mirrors v then ["Timestamp: " +++ now_isoformat env] else []))
    ++ [ "Total: " +++ PyStr.str (len rs);
         "Passed: " +++ PyStr.str (count_passed rs);
         "Failed: " +++ PyStr.str (len rs - count_passed rs) ]
    ++ printed
         (if (len rs - count_passed rs >? 0)%Z
          then EPrint (PyStr.nl +++ "Failed models:") :: failed_events rs
          else [EPrint (PyStr.nl +++ "✓ All models verified successfully!")]).
Proof.
  unfold summary_events. cbv zeta. rewrite !printed_app.
  now destruct (mirrors v).
Qed.

Lemma main_trace_no_files :
  find_model_files env (root_dir_of env) = [] ->
  printed (main_trace v env log0) = no_files_lines env
  /\ spawn_calls (main_trace v env log0) = []
  /\ forallb (fun e => negb (is_write e)) (main_trace v env log0) = true.
Proof.
  intros E. unfold main_trace, opening_events, removal_events. rewrite E.
  now destruct v, log0.
Qed.

End WholeRunFacts.

(** C3.  At the end of every run [results] holds exactly one entry per
    discovered model file, in discovery order; and when a summary is
    printed (that is, unless no model file was found) its lines report
    the number of files as the total, and a passed and a failed count
    that add up to it. *)
Theorem run_accounts_for_every_model (v : Script) (env : Env)
    (log0 : option string) :
  let final := snd (main_of v env (start log0)) in
  let model_files := find_model_files env (root_dir_of env) in
  List.length (results final) = List.length model_files
  /\ map path_of (results final)
     = map (fun p => relpath env p (root_dir_of env)) model_files
  /\ (model_files = [] \/
      exists before after passed failed,
        console (world final)
        = before
          ++ [ "Total: " +++ PyStr.str (len model_files);
               "Passed: " +++ PyStr.str passed;
               "Failed: " +++ PyStr.str failed ]
          ++ after
        /\ (passed + failed)%Z = len model_files
        /\ passed = count_passed (results final)
        /\ (0 <= passed)%Z /\ (0 <= failed)%Z).
Proof.
  cbv zeta. rewrite main_run. cbn [snd].
  rewrite main_final_console.
  unfold main_final, reached. cbn [with_results results].
  unfold main_trace, main_results.
  destruct (find_model_files env (root_dir_of env)) as [|p ps] eqn:E.
  - repeat split. now left.
  - set (files := p :: ps).
    split; [apply outcomes_length|].
    split; [apply outcomes_paths|].
    right.
    rewrite printed_app, printed_closing_events, app_nil_r.
    unfold body_events, main_results. cbv zeta. rewrite E. fold files.
    set (rs := outcomes v env [] (root_dir_of env) files).
    assert (Hlen : len rs = len files)
      by (unfold len, rs; now rewrite outcomes_length).
    pose proof (count_passed_bounds rs) as B.
    rewrite !printed_app, printed_summary_events, Hlen.
    match goal with
    | |- exists _ _ _ _, ?A ++ ?B ++ ?C ++ ?S1 ++ ?T ++ ?R = _ /\ _ =>
        exists (A ++ B ++ C ++ S1), R, (count_passed rs),
          (len files - count_passed rs)%Z
    end.
    split; [|repeat split; lia].
    now rewrite <- !app_assoc.
Qed.

(** C4.  Every run ends by exiting, with status 0 or 1: status 0 exactly
    when at least one model file was discovered and every outcome
    succeeded, status 1 exactly when none was discovered or some outcome
    failed; and when none is discovered the run prints its two opening
    lines and the no-files notice, nothing per model, and starts no
    subprocess. *)
Theorem exit_status (v : Script) (env : Env) (log0 : option string) :
  let model_files := find_model_files env (root_dir_of env) in
  exists code final,
    main_of v env (start log0) = (Raise (SystemExit code), final)
    /\ (code = 0 \/ code = 1)%Z
    /\ (code = 0%Z <->
        model_files <> []
        /\ Forall (fun r => success_of r = true) (results final))
    /\ (code = 1%Z <->
        model_files = []
        \/ Exists (fun r => success_of r = false) (results final))
    /\ (model_files = [] ->
        console (world final) = no_files_lines env
        /\ calls (world final) = []
        /\ results final = []).
Proof.
  cbv zeta. exists (main_exit_code v env), (main_final v env log0).
  split; [apply main_run|].
  rewrite main_final_console, main_final_calls.
  unfold main_exit_code, main_final, reached. cbn [with_results results].
  destruct (find_model_files env (root_dir_of env)) as [|p ps] eqn:E.
  - destruct (main_trace_no_files v env log0 E) as (Hp & Hc & _).
    repeat split; try (intros; congruence); auto.
    intros [H _]. now elim H.
  - set (rs := main_results v env).
    pose proof (count_passed_bounds rs) as B.
    pose proof (count_passed_all rs) as A.
    pose proof (not_all_passed rs) as N.
    destruct (len rs - count_passed rs >? 0)%Z eqn:G.
    + apply Z.gtb_lt in G.
      assert (NF : ~ Forall (fun r => success_of r = true) rs)
        by (intros F; apply A in F; lia).
      repeat split; try (intros; congruence); auto.
      * intros [_ F]. now elim NF.
      * intros _. right. now apply N.
    + assert (L : (len rs - count_passed rs <= 0)%Z).
      { destruct (Z.gtb_spec (len rs - count_passed rs) 0); [discriminate|lia]. }
      assert (F : Forall (fun r => success_of r = true) rs)
        by (apply A; lia).
      repeat split; try (intros; congruence); auto.
      intros [H|H]; [discriminate|]. apply N in H. now elim H.
Qed.

Lemma exit_status_witness :
  exists code final,
    main_of Logging Sample.env_no_root (start None)
    = (Raise (SystemExit code), final)
    /\ code = 1%Z
    /\ console (world final)
       = ["Searching for model files in: /s"; rule; "No .ini files found!"]
    /\ calls (world final) = []
    /\ results final = [].
Proof.
  destruct (exit_status Logging Sample.env_no_root None)
    as (code & final & Hrun & _ & _ & Hone & Hnone).
  exists code, final.
  exact (conj Hrun (conj (proj2 Hone (or_introl eq_refl)) (Hnone eq_refl))).
Defined.

(** C10.  When the search root does not exist or is not a directory,
    [find_model_files] (a total function: it raises nothing) returns the
    empty list, and a run with that root prints the no-files notice and
    exits with status 1, as for a tree without model files. *)
Theorem invalid_root_finds_nothing (env : Env) (root_dir : string) :
  (forall entries, tree_at env root_dir <> Some (Dir entries)) ->
  find_model_files env root_dir = []
  /\ (root_dir_of env = root_dir ->
      forall v log0,
        exists final,
          main_of v env (start log0) = (Raise (SystemExit 1), final)
          /\ console (world final) = no_files_lines env
          /\ calls (world final) = []).
Proof.
  intros H. pose proof (find_model_files_not_dir env root_dir H) as E.
  split; [exact E|]. intros <- v log0.
  exists (main_final v env log0). rewrite main_run.
  rewrite main_final_console, main_final_calls.
  destruct (main_trace_no_files v env log0 E) as (Hp & Hc & _).
  unfold main_exit_code. rewrite E. auto.
Qed.

Lemma invalid_root_finds_nothing_witness :
  find_model_files Sample.env_file_root "/t/notes.txt" = []
  /\ find_model_files Sample.env "/nowhere" = []
  /\ exists final,
       main_of Base Sample.env_file_root (start None)
       = (Raise (SystemExit 1), final)
       /\ console (world final)
          = ["Searching for model files in: /t/notes.txt"; rule;
             "No .ini files found!"]
       /\ calls (world final) = [].
Proof.
  assert (Hfile : forall entries,
             tree_at Sample.env_file_root "/t/notes.txt" <> Some (Dir entries))
    by discriminate.
  assert (Hnone : forall entries,
             tree_at Sample.env "/nowhere" <> Some (Dir entries))
    by discriminate.
  split; [|split].
  - exact (proj1 (invalid_root_finds_nothing Sample.env_file_root
                    "/t/notes.txt" Hfile)).
  - exact (proj1 (invalid_root_finds_nothing Sample.env "/nowhere" Hnone)).
  - exact (proj2 (invalid_root_finds_nothing Sample.env_file_root
                    "/t/notes.txt" Hfile) eq_refl Base None).
Defined.
(** ** The log file of the logging script *)

Section LogFile.

Variables (env : Env) (log0 : option string).



End LogFile.




(** ** Discovery: [find_model_files] *)

(** C5.  [find_model_files] returns exactly the files found at any depth
    below the root whose name ends with [".ini"], whatever they contain:
    it holds the same paths as [model_files_below], the listing of those
    files with one entry for each, and each path as many times; it is
    the sort of that listing, in ascending lexicographic order, and no
    other ascending arrangement of the listing exists; and it does not
    depend on the order in which directories enumerate their entries. *)
Theorem find_model_files_spec (env : Env) (root_dir : string) :
  (forall path,
     In path (find_model_files env root_dir) <->
     exists n name stem,
       tree_at env root_dir = Some n
       /\ file_below root_dir n path name
       /\ name = stem +++ ".ini")
  /\ Permutation (find_model_files env root_dir)
       (model_files_below env root_dir)
  /\ Permutation (find_model_files env root_dir)
       (ini_files_of (os_walk env root_dir))
  /\ StronglySorted le_str (find_model_files env root_dir)
  /\ find_model_files env root_dir = sorted (model_files_below env root_dir)
  /\ (forall l,
        StronglySorted le_str l ->
        Permutation l (model_files_below env root_dir) ->
        l = find_model_files env root_dir)
  /\ (forall env',
        same_layout_at (tree_at env root_dir) (tree_at env' root_dir) ->
        find_model_files env' root_dir = find_model_files env root_dir).
Proof.
  split; [|split; [|split; [|split; [|split; [|split]]]]].
  - intros path. unfold find_model_files, os_walk.
    split.
    + intros H. apply (Permutation_in _ (sorted_perm _)) in H.
      destruct (tree_at env root_dir) as [n|]; [|contradiction].
      apply in_ini_files_of_walk in H as (name & Hb & Hini).
      apply endswith_iff in Hini as [stem ->].
      now exists n, (stem +++ ".ini"), stem.
    + intros (n & name & stem & Hn & Hb & ->). rewrite Hn.
      apply (Permutation_in _ (Permutation_sym (sorted_perm _))).
      apply in_ini_files_of_walk. exists (stem +++ ".ini").
      split; [exact Hb|]. apply endswith_iff. now exists stem.
  - apply find_model_files_perm_below.
  - apply sorted_perm.
  - apply sorted_ordered.
  - apply find_model_files_sorts_below.
  - intros l Hl Hp. apply ordered_unique; [exact Hl|apply sorted_ordered|].
    etransitivity; [exact Hp|].
    symmetry. apply find_model_files_perm_below.
  - intros env' L. symmetry. now apply same_layout_find.
Qed.

Lemma find_model_files_spec_witness :
  find_model_files Sample.env_small_shuffled "/t"
  = find_model_files Sample.env_small "/t"
  /\ In "/t/d/x.ini" (find_model_files Sample.env_small "/t").
Proof.
  destruct (find_model_files_spec Sample.env_small "/t")
    as (Hin & _ & _ & _ & _ & _ & Horder).
  split.
  - apply Horder.
    apply sl_dir with
      (es' := [ ("a.ini", File "2");
                ("d", Dir [ ("y.txt", File "z"); ("x.ini", File "") ]) ]).
    + constructor; [split; [reflexivity|constructor]|].
      constructor; [|constructor].
      split; [reflexivity|].
      apply sl_dir with (es' := [ ("x.ini", File ""); ("y.txt", File "z") ]).
      * repeat constructor.
      * apply perm_swap.
    + apply perm_swap.
  - apply Hin.
    exists Sample.small, "x.ini", "x".
    split; [reflexivity|]. split; [|reflexivity].
    apply fb_deeper with (d := "d")
                         (sub := [ ("x.ini", File ""); ("y.txt", File "") ]).
    + right. now left.
    + apply (fb_here (OsPath.join "/t" "d") _ "x.ini" ""). now left.
Defined.

Example sample_discovery_shuffled :
  find_model_files Sample.env_shuffled "/t" = find_model_files Sample.env "/t".
Proof. reflexivity. Qed.

(** The files below the sample trees, one entry each, and what
    [find_model_files] makes of them. *)
Example sample_files_below :
  files_below "/t" Sample.small
  = [("/t/a.ini", "a.ini"); ("/t/d/x.ini", "x.ini"); ("/t/d/y.txt", "y.txt")]
  /\ model_files_below Sample.env_small "/t" = ["/t/a.ini"; "/t/d/x.ini"]
  /\ find_model_files Sample.env_small "/t" = ["/t/a.ini"; "/t/d/x.ini"]
  /\ model_files_below Sample.env_small_shuffled "/t"
     = ["/t/d/x.ini"; "/t/a.ini"].
Proof. repeat split. Qed.

(** * Further properties of the verification scripts *)

(** ** One model *)

(** X1.  [verify_model] reports success in exactly one situation: the
    mass-balance file exists, the engine exits with status zero, and its
    standard output contains ["VERIFIED!"]; the message is then
    ["VERIFIED!"]. *)
Theorem verify_model_success_iff (v : Script) (env : Env)
    (model_path mbal_filename : string) (s : State) :
  exists success message,
    fst (verify_model_of v env model_path mbal_filename s)
    = Ret (success, message)
    /\ (success = true <->
        path_exists env (calls (world s))
          (mbal_path_of model_path mbal_filename) = true
        /\ exists out err,
             engine env (calls (world s))
               (engine_call_of v model_path mbal_filename)
             = Completed 0 out err
             /\ PyStr.contains "VERIFIED!" out = true)
    /\ (success = true -> message = "VERIFIED!").
Proof.
  rewrite (verify_model_run v env false). unfold verdict. cbn [fst].
  destruct (path_exists env (calls (world s)) _) eqn:Hp.
  - destruct (engine env (calls (world s)) _) as [rc out err| |d] eqn:He.
    + destruct (rc =? 0)%Z eqn:Hrc.
      * apply Z.eqb_eq in Hrc. subst rc.
        destruct (PyStr.contains "VERIFIED!" out) eqn:Hc.
        -- eexists _, _. split; [reflexivity|]. split; [|reflexivity].
           split; [|reflexivity]. intros _. split; [reflexivity|].
           now exists out, err.
        -- eexists _, _. split; [reflexivity|]. split; [|discriminate].
           split; [discriminate|].
           intros (_ & out' & err' & E & Hc'). congruence.
      * eexists _, _. split; [reflexivity|]. split; [|discriminate].
        split; [discriminate|].
        intros (_ & out' & err' & E & _). apply Z.eqb_neq in Hrc.
        congruence.
    + eexists _, _. split; [reflexivity|]. split; [|discriminate].
      split; [discriminate|]. intros (_ & out' & err' & E & _). discriminate.
    + eexists _, _. split; [reflexivity|]. split; [|discriminate].
      split; [discriminate|]. intros (_ & out' & err' & E & _). discriminate.
  - eexists _, _. split; [reflexivity|]. split; [|discriminate].
    split; [discriminate|]. intros (E & _). discriminate.
Qed.

Lemma verify_model_success_iff_witness :
  exists message,
    fst (verify_model_of Logging Sample.env "/t/a/m1.ini" "mbal.txt"
           (start None)) = Ret (true, message)
    /\ message = "VERIFIED!".
Proof.
  destruct (verify_model_success_iff Logging Sample.env "/t/a/m1.ini"
              "mbal.txt" (start None))
    as (success & message & Hrun & Hiff & Hmsg).
  assert (Hs : success = true).
  { apply Hiff. split; [reflexivity|].
    exists "Mass balance VERIFIED! ok", "". split; reflexivity. }
  subst success. exists message. split; [exact Hrun|exact (Hmsg eq_refl)].
Defined.

(** ** A whole run *)

Section RunFacts.

Variables (v : Script) (env : Env).

Lemma spawn_calls_app (a b : list Event) :
  spawn_calls (a ++ b) = spawn_calls a ++ spawn_calls b.
Proof. apply flat_map_app. Qed.

Lemma subseq_length {A} (a b : list A) :
  subseq a b -> (List.length a <= List.length b)%nat.
Proof. induction 1; cbn; lia. Qed.

Lemma subseq_in {A} (a b : list A) (x : A) : subseq a b -> In x a -> In x b.
Proof.
  induction 1 as [|y a b _ IH|y a b _ IH]; cbn; [tauto| |]; intuition.
Qed.

Lemma spawn_calls_failed_events rs : spawn_calls (failed_events rs) = [].
Proof.
  induction rs as [|r rs IH]; [reflexivity|].
  unfold failed_events in *. cbn [flat_map].
  rewrite spawn_calls_app, IH. now destruct (negb (success_of r)).
Qed.

Lemma spawn_calls_summary_events rs :
  spawn_calls (summary_events v env rs) = [].
Proof.
  unfold summary_events. cbv zeta. rewrite !spawn_calls_app.
  destruct (mirrors v), (len rs - count_passed rs >? 0)%Z;
    cbn [spawn_calls flat_map app]; try reflexivity;
    apply spawn_calls_failed_events.
Qed.

(** The engine is started for some of the model files, in their order. *)
Lemma spawn_calls_loop_events root_dir model_files :
  forall hist,
    exists ran,
      subseq ran model_files
      /\ spawn_calls (loop_events v env hist root_dir model_files)
         = map (fun p => engine_call_of v p (default_mbal_of v)) ran.
Proof.
  induction model_files as [|p ps IH]; intros hist.
  - exists []. split; [constructor|reflexivity].
  - cbn [loop_events]. rewrite spawn_calls_app.
    destruct (IH (hist ++ spawned v env hist p (default_mbal_of v)))
      as (ran & Hsub & Hran).
    rewrite Hran. unfold model_events, spawned, engine_events.
    destruct (verdict v env hist p (default_mbal_of v)).
    destruct (path_exists env hist _).
    + exists (p :: ran). split; [now constructor|reflexivity].
    + exists ran. split; [now constructor|reflexivity].
Qed.

Lemma printed_model_events hist root_dir p :
  printed (model_events v env hist root_dir p)
  = progress_lines (relpath env p root_dir,
                    fst (verdict v env hist p (default_mbal_of v)),
                    snd (verdict v env hist p (default_mbal_of v))).
Proof.
  unfold model_events, spawned, engine_events, progress_lines.
  destruct (verdict v env hist p (default_mbal_of v)).
  now destruct (path_exists env hist _).
Qed.

Lemma printed_loop_events root_dir model_files :
  forall hist,
    printed (loop_events v env hist root_dir model_files)
    = flat_map progress_lines (outcomes v env hist root_dir model_files).
Proof.
  induction model_files as [|p ps IH]; intros hist; [reflexivity|].
  cbn [loop_events outcomes flat_map].
  now rewrite printed_app, printed_model_events, IH.
Qed.

Lemma printed_failed_events rs :
  printed (failed_events rs) = flat_map failed_lines (filter failed rs).
Proof.
  induction rs as [|r rs IH]; [reflexivity|].
  unfold failed_events in *. cbn [flat_map filter].
  rewrite printed_app, IH. unfold failed.
  now destruct (negb (success_of r)).
Qed.

Lemma some_failed_iff rs :
  (len rs - count_passed rs >? 0)%Z = existsb failed rs.
Proof.
  induction rs as [|r rs IH]; [reflexivity|].
  pose proof (count_passed_bounds rs) as B.
  rewrite count_passed_cons. cbn [existsb]. rewrite <- IH.
  unfold len in *. cbn [List.length]. unfold failed.
  destruct (success_of r); cbn [negb orb].
  - f_equal. lia.
  - apply Z.gtb_lt. lia.
Qed.

End RunFacts.

(** X2.  In every run the engine is started only for discovered model
    files, at most once for each and in discovery order, always with the
    script's own command line, the default reference file name and a
    time limit of 300 seconds. *)
Theorem run_engine_calls (v : Script) (env : Env) (log0 : option string) :
  let final := snd (main_of v env (start log0)) in
  let model_files := find_model_files env (root_dir_of env) in
  (exists ran,
     subseq ran model_files
     /\ calls (world final)
        = map (fun p => engine_call_of v p (default_mbal_of v)) ran)
  /\ (List.length (calls (world final)) <= List.length model_files)%nat
  /\ Forall (fun c => timeout c = 300%Z /\ capture_output c = true
                      /\ text c = true)
            (calls (world final)).
Proof.
  cbv zeta. rewrite main_run. cbn [snd]. rewrite main_final_calls.
  assert (H : exists ran,
             subseq ran (find_model_files env (root_dir_of env))
             /\ spawn_calls (main_trace v env log0)
                = map (fun p => engine_call_of v p (default_mbal_of v)) ran).
  { unfold main_trace.
    destruct (find_model_files env (root_dir_of env)) as [|p ps] eqn:E.
    - exists []. split; [constructor|].
      unfold opening_events, removal_events. now destruct v, log0.
    - unfold body_events. cbv zeta. rewrite E.
      destruct (spawn_calls_loop_events v env (root_dir_of env) (p :: ps) [])
        as (ran & Hsub & Hran).
      exists ran. split; [exact Hsub|].
      rewrite !spawn_calls_app, Hran, spawn_calls_summary_events.
      unfold opening_events, removal_events, closing_events.
      destruct v, log0; cbn [mirrors spawn_calls flat_map app];
        now rewrite ?app_nil_r. }
  destruct H as (ran & Hsub & Hran). rewrite Hran.
  split; [now exists ran|]. split.
  - rewrite length_map. now apply subseq_length.
  - apply Forall_forall. intros c Hc. apply in_map_iff in Hc as (p & <- & _).
    now destruct v.
Qed.

(** X3.  The first script never touches the log file: whatever was on
    disk before the run is there after it, no effect of the run removes
    or writes it, and nothing is collected in [output_lines]. *)
Theorem base_script_leaves_log_file (env : Env) (log0 : option string) :
  let final := snd (RegressionTests.main env (start log0)) in
  log_file (world final) = log0
  /\ forallb quiet (trace final) = true
  /\ output_lines final = [].
Proof.
  cbv zeta. change (RegressionTests.main env) with (main_of Base env).
  rewrite main_run. cbn [snd].
  rewrite main_final_world, main_final_trace.
  assert (Q : forallb quiet (main_trace Base env log0) = true).
  { unfold main_trace, body_events, opening_events, removal_events,
      closing_events. cbv zeta. cbn [mirrors app].
    destruct (find_model_files env (root_dir_of env)); [reflexivity|].
    rewrite app_nil_r. cbn [forallb quiet andb].
    now rewrite !forallb_app, quiet_loop_events, quiet_summary_events. }
  split; [|split].
  - now rewrite quiet_keeps_log.
  - exact Q.
  - unfold main_final, reached. cbn [with_results output_lines mirrors].
    change (@nil string) with (output_lines (start log0)).
    generalize (main_trace Base env log0) (start log0).
    intros es. induction es as [|e es IH]; intros s0; [reflexivity|].
    rewrite do_events_cons, IH. now destruct e.
Qed.

(** X4.  The console of a run, line by line.  Without model files: the
    two opening lines and the notice.  Otherwise: the opening lines and
    the count; three lines per model in discovery order (its relative
    path, a tick or a cross with the message, an empty line); the summary
    header (with a timestamp in the logging script only); the three
    counts; and then either the failed models in order, two lines each,
    or the all-verified line. *)
Theorem run_transcript (v : Script) (env : Env) (log0 : option string) :
  let final := snd (main_of v env (start log0)) in
  let model_files := find_model_files env (root_dir_of env) in
  let rs := results final in
  console (world final) =
  match model_files with
  | [] => no_files_lines env
  | _ :: _ =>
      [ "Searching for model files in: " +++ root_dir_of env;
        rule;
        "Found " +++ PyStr.str (len model_files) +++ " model file(s)"
        +++ PyStr.nl ]
      ++ flat_map progress_lines rs
      ++ [ rule; "SUMMARY"; rule ]
      ++ match v with
         | Base => []
         | Logging => [ "Timestamp: " +++ now_isoformat env ]
         end
      ++ [ "Total: " +++ PyStr.str (len rs);
           "Passed: " +++ PyStr.str (count_passed rs);
           "Failed: " +++ PyStr.str (len rs - count_passed rs) ]
      ++ if existsb failed rs
         then (PyStr.nl +++ "Failed models:")
              :: flat_map failed_lines (filter failed rs)
         else [ PyStr.nl +++ "✓ All models verified successfully!" ]
  end.
Proof.
  cbv zeta. rewrite main_run. cbn [snd]. rewrite main_final_console.
  unfold main_final, reached. cbn [with_results results].
  destruct (find_model_files env (root_dir_of env)) as [|p ps] eqn:E.
  - now destruct (main_trace_no_files v env log0 E).
  - unfold main_trace. rewrite E.
    rewrite printed_app, printed_closing_events, app_nil_r.
    unfold body_events, main_results. cbv zeta. rewrite E.
    set (rs := outcomes v env [] (root_dir_of env) (p :: ps)).
    rewrite !printed_app, printed_opening_events, printed_loop_events,
      printed_summary_events.
    fold rs. rewrite some_failed_iff.
    cbn [printed flat_map app].
    assert (Hts : (if mirrors v
                   then ["Timestamp: " +++ now_isoformat env] else [])
                  = match v with
                    | Base => []
                    | Logging => ["Timestamp: " +++ now_isoformat env]
                    end) by now destruct v.
    rewrite Hts. do 4 f_equal. do 3 f_equal. f_equal. do 3 f_equal.
    destruct (existsb failed rs); [|reflexivity].
    cbn [printed flat_map app]. now rewrite printed_failed_events.
Qed.

(** X5.  In the logging script every printed line is collected: at the
    end of a run [output_lines] is the console, line for line. *)
Theorem log_collects_every_line (env : Env) (log0 : option string) :
  let final := snd (Simulations.main env (start log0)) in
  output_lines final = console (world final).
Proof.
  cbv zeta. change (Simulations.main env) with (main_of Logging env).
  rewrite main_run. cbn [snd]. rewrite main_final_console.
  unfold main_final, reached. cbn [with_results output_lines mirrors].
  now rewrite output_lines_do_events.
Qed.

Section Isolation.

Variables (v : Script) (env : Env).
Hypothesis engine_stateless :
  forall hist c, engine env hist c = engine env [] c.
Hypothesis files_stable :
  forall hist p, path_exists env hist p = path_exists env [] p.

Lemma verdict_stateless hist p f :
  verdict v env hist p f = verdict v env [] p f.
Proof. unfold verdict. now rewrite engine_stateless, files_stable. Qed.

Lemma outcomes_stateless root_dir model_files :
  forall hist,
    outcomes v env hist root_dir model_files
    = map (fun p => (relpath env p root_dir,
                     fst (verdict v env [] p (default_mbal_of v)),
                     snd (verdict v env [] p (default_mbal_of v))))
          model_files.
Proof.
  induction model_files as [|p ps IH]; intros hist; [reflexivity|].
  cbn [outcomes map]. now rewrite IH, verdict_stateless.
Qed.

End Isolation.

(** X6.  When neither the engine nor the presence of files depends on the
    subprocess calls made before, the entry a run records for a model is
    what [verify_model] returns for that model on its own: no model's
    outcome depends on the others or on their order. *)
Theorem outcomes_are_independent (v : Script) (env : Env)
    (log0 : option string) :
  (forall hist c, engine env hist c = engine env [] c) ->
  (forall hist p, path_exists env hist p = path_exists env [] p) ->
  Forall2
    (fun p r =>
       path_of r = relpath env p (root_dir_of env)
       /\ fst (verify_model_of v env p (default_mbal_of v) (start None))
          = Ret (success_of r, message_of r))
    (find_model_files env (root_dir_of env))
    (results (snd (main_of v env (start log0)))).
Proof.
  intros He Hf. rewrite main_run. cbn [snd].
  unfold main_final, reached, main_results. cbn [with_results results].
  destruct (find_model_files env (root_dir_of env)) as [|p ps] eqn:E;
    [constructor|].
  rewrite (outcomes_stateless v env He Hf).
  generalize (p :: ps). intros l. induction l as [|q l IH]; [constructor|].
  cbn [map]. constructor; [|exact IH].
  split; [reflexivity|].
  rewrite (verify_model_run v env false). cbn [fst start world calls].
  unfold success_of, message_of. cbn [fst snd].
  now destruct (verdict v env [] q (default_mbal_of v)).
Qed.

Lemma outcomes_are_independent_witness :
  Forall2
    (fun p r =>
       path_of r = relpath Sample.env p "/t"
       /\ fst (verify_model_of Logging Sample.env p "mbal.txt" (start None))
          = Ret (success_of r, message_of r))
    ["/t/a/m1.ini"; "/t/a/sub/slow.ini"; "/t/b/m2.ini"; "/t/top.ini"]
    (results (snd (main_of Logging Sample.env (start (Some "old"))))).
Proof.
  exact (outcomes_are_independent Logging Sample.env (Some "old")
           (fun _ _ => eq_refl) (fun _ _ => eq_refl)).
Defined.

(** ** Paths: from discovery to the engine *)

Section PathFacts.

Lemma no_sep_split (name : string) :
  no_sep name = true -> OsPath.split_at_last_sep name = ("", name).
Proof.
  induction name as [|c s IH]; [reflexivity|].
  cbn [no_sep OsPath.split_at_last_sep]. intros H.
  apply andb_true_iff in H as [Hc Hs]. rewrite (IH Hs).
  cbn [PyStr.truthy]. apply negb_true_iff in Hc. now rewrite Hc.
Qed.

Lemma split_after_sep (pre name : string) :
  no_sep name = true ->
  OsPath.split_at_last_sep (pre +++ "/" +++ name) = (pre +++ "/", name).
Proof.
  intros H. induction pre as [|c pre IH].
  - change ("" +++ "/" +++ name) with (String "/" name).
    cbn [OsPath.split_at_last_sep].
    rewrite (no_sep_split _ H). reflexivity.
  - change (String c pre +++ "/" +++ name)
      with (String c (pre +++ "/" +++ name)).
    cbn [OsPath.split_at_last_sep]. rewrite IH.
    now destruct pre.
Qed.

Lemma no_sep_startswith (name : string) :
  no_sep name = true -> PyStr.startswith name "/" = false.
Proof.
  destruct name as [|c s]; [reflexivity|].
  cbn [no_sep]. intros H. apply andb_true_iff in H as [Hc _].
  apply negb_true_iff, Ascii.eqb_neq in Hc.
  unfold PyStr.startswith. cbn [String.prefix].
  destruct (ascii_dec "/" c) as [E|_]; [|reflexivity].
  now elim Hc.
Qed.

Lemma join_no_sep (root name : string) :
  no_sep name = true ->
  OsPath.join root name = name
  \/ exists pre, OsPath.join root name = pre +++ "/" +++ name.
Proof.
  intros H. unfold OsPath.join, OsPath.sep.
  rewrite (no_sep_startswith _ H).
  destruct root as [|c r]; [now left|]. cbn [PyStr.truthy negb orb].
  destruct (PyStr.endswith (String c r) "/") eqn:E.
  - apply endswith_iff in E as [stem ->]. right. exists stem.
    now rewrite append_assoc.
  - right. now exists (String c r).
Qed.

(** [os.path.basename] gives back the name that [os.path.join] added. *)
Lemma basename_join (root name : string) :
  no_sep name = true -> OsPath.basename (OsPath.join root name) = name.
Proof.
  intros H. unfold OsPath.basename.
  destruct (join_no_sep root name H) as [->|[pre ->]].
  - now rewrite no_sep_split.
  - now rewrite split_after_sep.
Qed.

Lemma rstrip_sep_app_sep (root : string) :
  OsPath.rstrip_sep (root +++ "/") = OsPath.rstrip_sep root.
Proof.
  induction root as [|c r IH]; [reflexivity|].
  cbn [String.append OsPath.rstrip_sep]. now rewrite IH.
Qed.

Lemma not_endswith_sep_tail (c : ascii) (r : string) :
  PyStr.endswith (String c r) "/" = false ->
  match r with
  | EmptyString => c <> OsPath.sep
  | String _ _ => PyStr.endswith r "/" = false
  end.
Proof.
  intros H. destruct r as [|d r].
  - intros ->. discriminate.
  - destruct (PyStr.endswith (String d r) "/") eqn:E; [|reflexivity].
    apply endswith_iff in E as [stem E].
    assert (T : PyStr.endswith (String c (String d r)) "/" = true).
    { apply endswith_iff. exists (String c stem). cbn. now rewrite E. }
    congruence.
Qed.

Lemma rstrip_sep_id (root : string) :
  PyStr.endswith root "/" = false -> OsPath.rstrip_sep root = root.
Proof.
  induction root as [|c r IH]; [reflexivity|]. intros H.
  apply not_endswith_sep_tail in H. cbn [OsPath.rstrip_sep].
  destruct r as [|d r].
  - cbn [OsPath.rstrip_sep PyStr.truthy negb].
    apply Ascii.eqb_neq in H. now rewrite H.
  - rewrite (IH H). cbn [PyStr.truthy negb]. now rewrite andb_false_r.
Qed.

Lemma rstrip_sep_repeat (n : nat) :
  OsPath.rstrip_sep (PyStr.repeat_char OsPath.sep n) = "".
Proof.
  induction n as [|n IH]; [reflexivity|].
  cbn [PyStr.repeat_char OsPath.rstrip_sep]. now rewrite IH.
Qed.

Lemma all_sep_rstrip (head : string) :
  OsPath.all_sep head = true -> OsPath.rstrip_sep head = "".
Proof.
  unfold OsPath.all_sep. intros H. apply String.eqb_eq in H.
  rewrite H. apply rstrip_sep_repeat.
Qed.

(** [os.path.dirname] gives back the directory that [os.path.join]
    started from, when that has no trailing separator. *)
Lemma dirname_join (root name : string) :
  no_sep name = true ->
  PyStr.endswith root "/" = false ->
  OsPath.dirname (OsPath.join root name) = root.
Proof.
  intros H E. unfold OsPath.dirname, OsPath.join, OsPath.sep.
  rewrite (no_sep_startswith _ H), E.
  destruct root as [|c r].
  - cbn [PyStr.truthy negb orb String.append].
    now rewrite no_sep_split.
  - cbn [PyStr.truthy negb orb]. rewrite split_after_sep by exact H.
    cbn [fst]. pose proof (rstrip_sep_id _ E) as R.
    rewrite <- rstrip_sep_app_sep in R.
    destruct (OsPath.all_sep (String c r +++ "/")) eqn:A.
    + apply all_sep_rstrip in A. congruence.
    + cbn [String.append PyStr.truthy negb andb] in *. exact R.
Qed.

Lemma join_suffix (a b : string) : exists pre, OsPath.join a b = pre +++ b.
Proof.
  unfold OsPath.join.
  destruct (PyStr.startswith b _); [now exists ""|].
  destruct (_ || _); [now exists a|].
  exists (a +++ String OsPath.sep ""). now rewrite append_assoc.
Qed.

Lemma file_below_suffix top n path name :
  file_below top n path name -> exists pre, path = pre +++ name.
Proof. induction 1; [apply join_suffix|assumption]. Qed.

End PathFacts.

(** X7.  For a model path built the way discovery builds it, a directory
    without trailing separator joined with a file name, [verify_model]
    looks for the reference file in that same directory, and starts the
    engine there with the bare file name as its input:
    [<program> <subcommand> <name> -v <reference name>]. *)
Theorem verify_model_runs_in_model_directory (v : Script) (env : Env)
    (root name mbal_filename : string) (s : State) :
  no_sep name = true ->
  PyStr.endswith root "/" = false ->
  (path_exists env (calls (world s)) (OsPath.join root mbal_filename) = false ->
   verify_model_of v env (OsPath.join root name) mbal_filename s
   = (Ret (false, "Mass balance file not found: "
                  +++ OsPath.join root mbal_filename), s))
  /\ (path_exists env (calls (world s)) (OsPath.join root mbal_filename) = true ->
      calls (world (snd (verify_model_of v env (OsPath.join root name)
                           mbal_filename s)))
      = calls (world s)
        ++ [mkCall (match v with
                    | Base => ["kalixcli"; "sim"]
                    | Logging => ["kalix"; "simulate"]
                    end ++ [name; "-v"; mbal_filename])
                   root true true 300]).
Proof.
  intros Hn Hr. rewrite (verify_model_run v env false).
  unfold verdict, engine_events, mbal_path_of, engine_call_of.
  rewrite (dirname_join _ _ Hn Hr), (basename_join _ _ Hn).
  split; intros Hp; rewrite Hp; [reflexivity|].
  cbn [snd map]. rewrite world_do_events, calls_replay. reflexivity.
Qed.

Lemma verify_model_runs_in_model_directory_witness :
  calls (world (snd (verify_model_of Base Sample.env
                       (OsPath.join "/t/a" "m1.ini")
                       "mbal_for_verification.txt" (start None))))
  = [mkCall ["kalixcli"; "sim"; "m1.ini"; "-v"; "mbal_for_verification.txt"]
            "/t/a" true true 300]
  /\ verify_model_of Logging Sample.env (OsPath.join "/t/b" "m2.ini")
       "mbal.txt" (start None)
     = (Ret (false, "Mass balance file not found: /t/b/mbal.txt"),
        start None).
Proof.
  split.
  - exact (proj2 (verify_model_runs_in_model_directory Base Sample.env
                    "/t/a" "m1.ini" "mbal_for_verification.txt" (start None)
                    eq_refl eq_refl) eq_refl).
  - exact (proj1 (verify_model_runs_in_model_directory Logging Sample.env
                    "/t/b" "m2.ini" "mbal.txt" (start None)
                    eq_refl eq_refl) eq_refl).
Defined.

(** X8.  Every path returned by [find_model_files] ends with [".ini"],
    and an empty result means that no file below the root has such a
    name. *)
Theorem find_model_files_paths_end_with_ini (env : Env) (root_dir : string) :
  Forall (fun path => PyStr.endswith path ".ini" = true)
         (find_model_files env root_dir)
  /\ (find_model_files env root_dir = [] <->
      forall n path name,
        tree_at env root_dir = Some n ->
        file_below root_dir n path name ->
        PyStr.endswith name ".ini" = false).
Proof.
  unfold find_model_files, os_walk. split.
  - apply Forall_forall. intros path H.
    apply (Permutation_in _ (sorted_perm _)) in H.
    destruct (tree_at env root_dir) as [n|]; [|contradiction].
    apply in_ini_files_of_walk in H as (name & Hb & Hini).
    apply file_below_suffix in Hb as [pre ->].
    apply endswith_iff in Hini as [stem ->].
    apply endswith_iff. exists (pre +++ stem). now rewrite append_assoc.
  - split.
    + intros E n path name Hn Hb. rewrite Hn in E.
      destruct (PyStr.endswith name ".ini") eqn:Hini; [|reflexivity].
      assert (I : In path (ini_files_of (walk root_dir n)))
        by (apply in_ini_files_of_walk; now exists name).
      apply (Permutation_in _ (Permutation_sym (sorted_perm _))) in I.
      rewrite E in I. contradiction.
    + intros H.
      destruct (sorted (ini_files_of
                  match tree_at env root_dir with
                  | Some n => walk root_dir n
                  | None => []
                  end)) as [|path l] eqn:E; [reflexivity|].
      assert (I : In path (path :: l)) by now left.
      rewrite <- E in I. apply (Permutation_in _ (sorted_perm _)) in I.
      destruct (tree_at env root_dir) as [n|]; [|contradiction].
      apply in_ini_files_of_walk in I as (name & Hb & Hini).
      unfold is_ini in Hini. rewrite (H n path name eq_refl Hb) in Hini.
      discriminate.
Qed.

(** * Properties of [update_version.py] *)

Module UpdateVersionFacts.
Import UpdateVersion.

Lemma unquoted_cons (c : ascii) (s : string) :
unquoted (String c s) = negb (Ascii.eqb c quote) && unquoted s.
Proof.
unfold unquoted, dq. cbn [PyStr.contains String.prefix].
destruct (Ascii.eqb_spec c quote) as [->|ne].
- destruct (ascii_dec quote quote) as [_|ne]; [|now elim ne].
  now destruct s.
- destruct (ascii_dec quote c) as [E|_]; [now elim ne|reflexivity].
Qed.

Lemma unquoted_has_quote (s : string) : unquoted s = negb (has_quote s).
Proof.
induction s as [|c s IH]; [reflexivity|].
rewrite unquoted_cons, IH. cbn [has_quote]. now rewrite negb_orb.
Qed.

Lemma has_quote_app (a b : string) :
has_quote (a +++ b) = has_quote a || has_quote b.
Proof.
induction a as [|c a IH]; [reflexivity|].
cbn [String.append has_quote]. now rewrite IH, orb_assoc.
Qed.

Lemma strip_prefix_app (k t : string) : strip_prefix k (k +++ t) = Some t.
Proof.
induction k as [|c k IH]; [reflexivity|].
cbn [String.append strip_prefix]. now rewrite Ascii.eqb_refl.
Qed.

Lemma strip_prefix_spec (k : string) :
forall s t, strip_prefix k s = Some t -> s = k +++ t.
Proof.
induction k as [|a k IH]; intros s t H; cbn [strip_prefix] in H.
- now injection H as ->.
- destruct s as [|b s]; [discriminate|].
  destruct (Ascii.eqb a b) eqn:E; [|discriminate].
  apply Ascii.eqb_eq in E. subst b. cbn [String.append].
  now rewrite (IH _ _ H).
Qed.

Lemma span_unquoted_app (w r : string) :
unquoted w = true -> span_unquoted (w +++ dq +++ r) = (w, dq +++ r).
Proof.
induction w as [|c w IH]; intros H.
- reflexivity.
- rewrite unquoted_cons in H. apply andb_true_iff in H as [Hc Hw].
  apply negb_true_iff in Hc.
  cbn [String.append span_unquoted]. rewrite Hc.
  change (w +++ String quote r) with (w +++ dq +++ r).
  now rewrite (IH Hw).
Qed.

Lemma span_unquoted_spec (s : string) :
forall run rest,
  span_unquoted s = (run, rest) ->
  s = run +++ rest /\ unquoted run = true
  /\ (rest = "" \/ exists r, rest = dq +++ r).
Proof.
induction s as [|c s IH]; intros run rest H; cbn [span_unquoted] in H.
- injection H as <- <-. repeat split. now left.
- destruct (Ascii.eqb c quote) eqn:E.
  + injection H as <- <-. apply Ascii.eqb_eq in E. subst c.
    repeat split. right. now exists s.
  + destruct (span_unquoted s) as [run' rest'] eqn:Es.
    injection H as <- <-.
    destruct (IH _ _ eq_refl) as (-> & Hu & Hr).
    repeat split; [|exact Hr].
    rewrite unquoted_cons, E, Hu. reflexivity.
Qed.

(** The pattern matches at the head of a version assignment. *)
Lemma match_here_app (w r : string) :
w <> "" -> unquoted w = true ->
match_here (key +++ w +++ dq +++ r) = Some r.
Proof.
intros Hne Hu. unfold match_here.
rewrite strip_prefix_app, (span_unquoted_app _ _ Hu).
destruct w; [now elim Hne|reflexivity].
Qed.

(** And only there. *)
Lemma match_here_spec (s r : string) :
match_here s = Some r ->
exists w, s = key +++ w +++ dq +++ r /\ w <> "" /\ unquoted w = true.
Proof.
unfold match_here. intros H.
destruct (strip_prefix key s) as [t|] eqn:Ek; [|discriminate].
apply strip_prefix_spec in Ek.
destruct (span_unquoted t) as [run rest] eqn:Es.
destruct (span_unquoted_spec _ _ _ Es) as (-> & Hu & Hr).
destruct run as [|c run]; [discriminate|].
destruct rest as [|q rest]; [discriminate|].
injection H as ->.
destruct Hr as [Hr|[r' Hr]]; [discriminate|].
injection Hr as -> ->.
exists (String c run). repeat split; [exact Ek|discriminate|exact Hu].
Qed.

Lemma accepts_app (k t : string) : accepts k (k +++ t) = accepts "" t.
Proof.
induction k as [|a k IH]; [reflexivity|].
cbn [String.append accepts]. now rewrite Ascii.eqb_refl.
Qed.

Lemma accepts_spec (k : string) :
forall s, accepts k s = true ->
          exists t, s = k +++ t /\ accepts "" t = true.
Proof.
induction k as [|a k IH]; intros s H.
- now exists s.
- destruct s as [|b s]; [discriminate|]. cbn [accepts] in H.
  apply andb_true_iff in H as [E H]. apply Ascii.eqb_eq in E. subst b.
  destruct (IH _ H) as (t & -> & Ht). now exists t.
Qed.

Lemma span_unquoted_has_quote (s : string) :
has_quote s = true ->
exists run r, span_unquoted s = (run, dq +++ r) /\ unquoted run = true.
Proof.
induction s as [|c s IH]; [discriminate|]. cbn [has_quote span_unquoted].
destruct (Ascii.eqb c quote) eqn:E.
- intros _. apply Ascii.eqb_eq in E. subst c. now exists "", s.
- cbn [orb]. intros H. destruct (IH H) as (run & r & -> & Hu).
  exists (String c run), r. split; [reflexivity|].
  now rewrite unquoted_cons, E, Hu.
Qed.

(** [accepts key] says whether the pattern matches at the head. *)
Lemma accepts_match_here (s : string) :
accepts key s = true <-> exists r, match_here s = Some r.
Proof.
split.
- intros H. destruct (accepts_spec _ _ H) as (t & -> & Ht).
  destruct t as [|c t]; [discriminate|]. cbn [accepts] in Ht.
  apply andb_true_iff in Ht as [Hc Hq].
  destruct (span_unquoted_has_quote _ Hq) as (run & r & Es & Hu).
  exists r. unfold match_here. rewrite strip_prefix_app.
  cbn [span_unquoted]. apply negb_true_iff in Hc. now rewrite Hc, Es.
- intros [r H]. apply match_here_spec in H as (w & -> & Hne & Hu).
  rewrite accepts_app. destruct w as [|c w]; [now elim Hne|].
  rewrite unquoted_cons in Hu. apply andb_true_iff in Hu as [Hc _].
  cbn [String.append accepts]. rewrite Hc. cbn [andb].
  rewrite has_quote_app, has_quote_app. cbn [dq has_quote].
  now rewrite Ascii.eqb_refl, !orb_true_r.
Qed.

Lemma tails_self (s : string) : In s (tails s).
Proof. destruct s; now left. Qed.

Lemma tails_closed (s : string) :
forall a k, In (String a k) (tails s) -> In k (tails s).
Proof.
induction s as [|c s IH]; intros a k H; cbn [tails] in *.
- destruct H as [H|[]]. discriminate.
- right. destruct H as [H|H].
  + injection H as _ ->. apply tails_self.
  + destruct s as [|d s]; cbn [tails] in *.
    * destruct H as [H|[]]. discriminate.
    * apply (IH a k). exact H.
Qed.

Lemma rewritten_has_quote (v s t : string) :
rewritten v s t -> has_quote t = true -> has_quote s = true.
Proof.
induction 1 as [s|old rest _ _|c s t _ IH]; intros H.
- exact H.
- reflexivity.
- cbn [has_quote] in *. apply orb_true_iff in H as [H|H].
  + now rewrite H.
  + rewrite (IH H). apply orb_true_r.
Qed.

(** Giving a later version assignment a new value creates no match at
  an earlier place. *)
Lemma rewritten_accepts (v s t : string) :
rewritten v s t ->
forall k, In k (tails key) -> accepts k t = true -> accepts k s = true.
Proof.
induction 1 as [s|old rest Hne Hu|c s t R IH]; intros k Hk H.
- exact H.
- cbn in Hk.
  destruct Hk as [<-|Hk].
  { apply accepts_match_here. exists rest. now apply match_here_app. }
  repeat (destruct Hk as [<-|Hk]; [try discriminate H; try reflexivity|]).
  contradiction.
- destruct k as [|a k].
  + cbn [accepts] in *. apply andb_true_iff in H as [Hc Hq].
    rewrite Hc. cbn [andb]. exact (rewritten_has_quote _ _ _ R Hq).
  + cbn [accepts] in *. apply andb_true_iff in H as [Ha H].
    rewrite Ha. cbn [andb]. apply IH; [|exact H].
    exact (tails_closed _ _ _ Hk).
Qed.

Lemma no_new_match (v s t : string) :
rewritten v s t -> match_here s = None -> match_here t = None.
Proof.
intros R Hs. destruct (match_here t) as [r|] eqn:Ht; [|reflexivity].
assert (A : accepts key s = true).
{ apply (rewritten_accepts _ _ _ R); [apply tails_self|].
  apply accepts_match_here. now exists r. }
apply accepts_match_here in A as [r' A]. congruence.
Qed.

Lemma sub_first_rewritten (v : string) (s : string) :
forall bol, rewritten v s (sub_first (key +++ v +++ dq) bol s).
Proof.
induction s as [|c s IH]; intros bol.
- destruct bol; constructor.
- assert (Hskip : rewritten v (String c s)
                    (String c (sub_first (key +++ v +++ dq)
                                 (Ascii.eqb c newline) s)))
    by (constructor; apply IH).
  destruct bol; [|exact Hskip].
  cbn [sub_first].
  destruct (match_here (String c s)) as [rest|] eqn:Hm; [|exact Hskip].
  apply match_here_spec in Hm as (old & -> & Hne & Hu).
  rewrite !append_assoc. now constructor.
Qed.

Lemma sub_first_unfold (repl : string) (bol : bool) (s : string) :
sub_first repl bol s =
match (if bol then match_here s else None) with
| Some rest => repl +++ rest
| None =>
    match s with
    | EmptyString => EmptyString
    | String c s' => String c (sub_first repl (Ascii.eqb c newline) s')
    end
end.
Proof. now destruct s. Qed.

Lemma sub_first_idempotent (v : string) (s : string) :
v <> "" -> unquoted v = true ->
forall bol,
  sub_first (key +++ v +++ dq) bol (sub_first (key +++ v +++ dq) bol s)
  = sub_first (key +++ v +++ dq) bol s.
Proof.
intros Hne Hu. induction s as [|c s IH]; intros bol.
- destruct bol; reflexivity.
- assert (Hskip :
    forall b : bool,
      (if b then match_here (String c s) else None) = None ->
      sub_first (key +++ v +++ dq) b
        (String c (sub_first (key +++ v +++ dq) (Ascii.eqb c newline) s))
      = String c (sub_first (key +++ v +++ dq) (Ascii.eqb c newline) s)).
  { intros b Hb. cbn [sub_first].
    assert (Hb' : (if b
                   then match_here
                          (String c (sub_first (key +++ v +++ dq)
                                       (Ascii.eqb c newline) s))
                   else None) = None).
    { destruct b; [|reflexivity].
      apply (no_new_match v (String c s)); [|exact Hb].
      constructor. apply sub_first_rewritten. }
    rewrite Hb'. now rewrite IH. }
  destruct bol.
  + rewrite (sub_first_unfold _ true (String c s)).
    destruct (match_here (String c s)) as [rest|] eqn:Hm.
    * rewrite !append_assoc, sub_first_unfold.
      rewrite match_here_app by assumption. now rewrite !append_assoc.
    * now apply Hskip.
  + now apply (Hskip false).
Qed.

(** X9.  Substituting a plain version (not empty, without double quote
  or backslash) a second time changes nothing: a text whose first
  version line already holds the version is left as it is. *)
Theorem re_sub_version_idempotent (version content : string) :
plain_version version ->
exists new_content,
  re_sub_version version content = Some new_content
  /\ re_sub_version version new_content = Some new_content.
Proof.
intros (Hne & Hu & Hb). unfold re_sub_version. rewrite Hb.
eexists. split; [reflexivity|].
now rewrite sub_first_idempotent.
Qed.

Lemma re_sub_version_idempotent_witness :
exists new_content,
  re_sub_version "0.2.0" sample_cargo = Some new_content
  /\ re_sub_version "0.2.0" new_content = Some new_content.
Proof.
apply re_sub_version_idempotent. repeat split. discriminate.
Defined.

(** With an empty version the second substitution is not idle: the first
  version line no longer matches, and the next one is overwritten. *)
Example empty_version_is_not_idempotent :
match re_sub_version "" sample_cargo with
| Some once => re_sub_version "" once <> Some once
| None => False
end.
Proof. vm_compute. discriminate. Qed.

Lemma at_line_start_cons (bol : bool) (c : ascii) (pre : string) :
at_line_start bol (String c pre)
<-> at_line_start (Ascii.eqb c newline) pre.
Proof.
unfold at_line_start. split.
- intros [[H _]|[p H]]; [discriminate|].
  destruct p as [|d p]; injection H as -> ->.
  + left. now rewrite Ascii.eqb_refl.
  + right. now exists p.
- intros [[-> H]|[p ->]].
  + apply Ascii.eqb_eq in H. subst c. right. now exists "".
  + right. now exists (String c p).
Qed.

Lemma version_line_at_cons (c : ascii) (s pre old rest : string) :
version_line_at (String c s) (String c pre) old rest
<-> version_line_at s pre old rest.
Proof.
unfold version_line_at. cbn [String.append]. split.
- intros (H & Hne & Hu). now injection H as ->.
- intros (-> & Hne & Hu). now repeat split.
Qed.

Lemma version_line_at_head (s old rest : string) :
version_line_at s "" old rest -> match_here s = Some rest.
Proof. intros (-> & Hne & Hu). now apply match_here_app. Qed.

(** What the substitution does: it gives the version to the first
  version assignment that begins a line and leaves the rest of the text
  as it is; a text without such an assignment is returned unchanged. *)
Lemma sub_first_spec (repl : string) (s : string) :
forall bol,
  (exists pre old rest,
     version_line_at s pre old rest
     /\ at_line_start bol pre
     /\ sub_first repl bol s = pre +++ repl +++ rest
     /\ forall pre' old' rest',
          version_line_at s pre' old' rest' ->
          at_line_start bol pre' ->
          (String.length pre <= String.length pre')%nat)
  \/ (sub_first repl bol s = s
      /\ forall pre old rest,
           version_line_at s pre old rest -> at_line_start bol pre -> False).
Proof.
induction s as [|c s IH]; intros bol.
- right. split; [now destruct bol|].
  intros pre old rest (H & _) _. destruct pre; discriminate.
- rewrite sub_first_unfold.
  destruct (if bol then match_here (String c s) else None)
    as [rest|] eqn:Hm.
  + destruct bol; [|discriminate].
    destruct (match_here_spec _ _ Hm) as (old & E & Hne & Hu).
    left. exists "", old, rest. repeat split; auto.
    * now left.
    * intros. cbn. lia.
  + assert (Hhead : forall old rest,
               version_line_at (String c s) "" old rest ->
               at_line_start bol "" -> False).
    { intros old rest Hv [[_ ->]|[p Hp]].
      - apply version_line_at_head in Hv. congruence.
      - destruct p; discriminate. }
    destruct (IH (Ascii.eqb c newline))
      as [(pre & old & rest & Hv & Hl & Hs & Hmin)|(Hs & Hno)].
    * left. exists (String c pre), old, rest.
      split; [now apply version_line_at_cons|].
      split; [now apply at_line_start_cons|].
      split; [now rewrite Hs|].
      intros pre' old' rest' Hv' Hl'.
      destruct pre' as [|c' pre']; [now elim (Hhead old' rest')|].
      assert (c' = c) by (destruct Hv' as (E & _); now injection E).
      subst c'. apply (proj1 (version_line_at_cons _ _ _ _ _)) in Hv'.
      apply (proj1 (at_line_start_cons _ _ _)) in Hl'.
      specialize (Hmin _ _ _ Hv' Hl'). cbn. lia.
    * right. split; [now rewrite Hs|].
      intros pre' old' rest' Hv' Hl'.
      destruct pre' as [|c' pre']; [now elim (Hhead old' rest')|].
      assert (c' = c) by (destruct Hv' as (E & _); now injection E).
      subst c'. apply (proj1 (version_line_at_cons _ _ _ _ _)) in Hv'.
      apply (proj1 (at_line_start_cons _ _ _)) in Hl'.
      exact (Hno _ _ _ Hv' Hl').
Qed.

(** X10.  What [re.sub] does to the text of a Cargo file, for a version
  without backslash: the first version assignment that begins a line
  (the text [version = ], a double quote, a non-empty value without
  double quote, a double quote) gets the version as its value, and
  everything before and after it is kept; a text without such an
  assignment is returned as it is. *)
Theorem re_sub_version_spec (version content : string) :
PyStr.contains "\" version = false ->
(exists pre old rest,
   version_line_at content pre old rest
   /\ at_line_start true pre
   /\ re_sub_version version content
      = Some (pre +++ key +++ version +++ dq +++ rest)
   /\ forall pre' old' rest',
        version_line_at content pre' old' rest' ->
        at_line_start true pre' ->
        (String.length pre <= String.length pre')%nat)
\/ (re_sub_version version content = Some content
    /\ forall pre old rest,
         version_line_at content pre old rest ->
         at_line_start true pre -> False).
Proof.
intros Hb. unfold re_sub_version. rewrite Hb.
destruct (sub_first_spec (key +++ version +++ dq) content true)
  as [(pre & old & rest & Hv & Hl & Hs & Hmin)|(Hs & Hno)].
- left. exists pre, old, rest. repeat split; try assumption.
  + now destruct Hv.
  + now destruct Hv.
  + now destruct Hv.
  + now rewrite Hs, !append_assoc.
- right. split; [now rewrite Hs|exact Hno].
Qed.

Lemma re_sub_version_spec_witness :
(exists pre old rest,
   version_line_at sample_cargo pre old rest
   /\ at_line_start true pre
   /\ re_sub_version "0.2.0" sample_cargo
      = Some (pre +++ key +++ "0.2.0" +++ dq +++ rest)
   /\ forall pre' old' rest',
        version_line_at sample_cargo pre' old' rest' ->
        at_line_start true pre' ->
        (String.length pre <= String.length pre')%nat)
\/ (re_sub_version "0.2.0" sample_cargo = Some sample_cargo
    /\ forall pre old rest,
         version_line_at sample_cargo pre old rest ->
         at_line_start true pre -> False).
Proof. exact (re_sub_version_spec "0.2.0" sample_cargo eq_refl). Defined.

(** ** The run of [main] *)

Lemma path_eqb_eq (p q : Path) : path_eqb p q = true <-> p = q.
Proof.
unfold path_eqb. destruct (list_eq_dec string_dec p q); split; congruence.
Qed.

Lemma path_eqb_refl (p : Path) : path_eqb p p = true.
Proof. now apply path_eqb_eq. Qed.

Lemma path_eqb_neq (p q : Path) : p <> q -> path_eqb p q = false.
Proof.
intros H. destruct (path_eqb p q) eqn:E; [|reflexivity].
apply path_eqb_eq in E. contradiction.
Qed.

Lemma existsb_path_in (p : Path) (paths : list Path) :
existsb (path_eqb p) paths = true <-> In p paths.
Proof.
rewrite existsb_exists. split.
- intros (q & Hq & E). apply path_eqb_eq in E. now subst.
- intros H. exists p. split; [exact H|apply path_eqb_refl].
Qed.

Lemma same_kind_refl (e : option Entry) : same_kind e e.
Proof. now destruct e as [[|c]|]. Qed.

Lemma same_kind_trans (a b c : option Entry) :
same_kind a b -> same_kind b c -> same_kind a c.
Proof.
destruct a as [[|x]|], b as [[|y]|], c as [[|z]|]; cbn; tauto.
Qed.

Section Loop.

Variables (env : Env) (version : string).

(** Whatever happens, the loop changes nothing outside [paths], and
  leaves every path with an entry of the kind it had. *)
Lemma for_cargo_files_frame (paths : list Path) :
forall st p,
  same_kind (files st p)
            (files (snd (for_cargo_files env version paths st)) p)
  /\ (~ In p paths ->
      files (snd (for_cargo_files env version paths st)) p = files st p).
Proof.
induction paths as [|q rest IH]; intros st p.
- split; [apply same_kind_refl|reflexivity].
- cbn [for_cargo_files].
  destruct (files st q) as [[|content]|] eqn:Eq.
  + split; [apply same_kind_refl|reflexivity].
  + destruct (re_sub_version version content) as [new_content|].
    * destruct (negb (String.eqb content new_content)).
      -- match goal with |- context [for_cargo_files _ _ rest ?s] =>
           destruct (IH s p) as [K F] end.
         cbn [print write_text files] in K, F. split.
         ++ eapply same_kind_trans; [|exact K].
            destruct (path_eqb p q) eqn:E.
            ** apply path_eqb_eq in E. subst p. now rewrite Eq.
            ** apply same_kind_refl.
         ++ intros N. rewrite F by (intros I; apply N; now right).
            rewrite path_eqb_neq; [reflexivity|].
            intros ->. apply N. now left.
      -- match goal with |- context [for_cargo_files _ _ rest ?s] =>
           destruct (IH s p) as [K F] end.
         cbn [print files] in K, F. split; [exact K|].
         intros N. apply F. intros I. apply N. now right.
    * split; [apply same_kind_refl|reflexivity].
  + match goal with |- context [for_cargo_files _ _ rest ?s] =>
      destruct (IH s p) as [K F] end.
    cbn [print files] in K, F. split; [exact K|].
    intros N. apply F. intros I. apply N. now right.
Qed.

Hypothesis no_backslash : PyStr.contains "\" version = false.

(** Without a directory in the way, the loop ends normally and has
  given the version to each text file of [paths]. *)
Lemma for_cargo_files_ok (paths : list Path) :
NoDup paths ->
forall st,
  (forall p, In p paths -> files st p <> Some Directory) ->
  exists st',
    for_cargo_files env version paths st = (Ok tt, st')
    /\ forall p,
         files st' p = if existsb (path_eqb p) paths
                       then bump version (files st p)
                       else files st p.
Proof.
induction 1 as [|q rest Hq ND IH]; intros st Hd.
- now exists st.
- cbn [for_cargo_files existsb].
  assert (Hstep : forall st1,
            (forall p, p <> q -> files st1 p = files st p) ->
            files st1 q = bump version (files st q) ->
            exists st',
              for_cargo_files env version rest st1 = (Ok tt, st')
              /\ forall p,
                   files st' p
                   = if path_eqb p q || existsb (path_eqb p) rest
                     then bump version (files st p)
                     else files st p).
  { intros st1 Hother Hself.
    destruct (IH st1) as (st' & Hrun & Hfiles).
    - intros p Hp. rewrite Hother.
      + apply Hd. now right.
      + intros ->. contradiction.
    - exists st'. split; [exact Hrun|]. intros p. rewrite Hfiles.
      destruct (path_eqb p q) eqn:E; cbn [orb].
      + apply path_eqb_eq in E. subst p.
        assert (Hn : existsb (path_eqb q) rest = false).
        { destruct (existsb (path_eqb q) rest) eqn:X; [|reflexivity].
          apply existsb_path_in in X. contradiction. }
        now rewrite Hn.
      + assert (p <> q) by (intros ->; now rewrite path_eqb_refl in E).
        now rewrite Hother. }
  destruct (files st q) as [[|content]|] eqn:Eq.
  + now elim (Hd q (or_introl eq_refl)).
  + unfold re_sub_version. rewrite no_backslash.
    destruct (negb (String.eqb content _)) eqn:Ec.
    * apply Hstep.
      -- intros p Hp. cbn [print write_text files].
         now rewrite path_eqb_neq.
      -- cbn [print write_text files bump]. now rewrite path_eqb_refl.
    * apply Hstep; [reflexivity|].
      cbn [print files bump]. rewrite Eq.
      apply negb_false_iff, String.eqb_eq in Ec. now rewrite <- Ec.
  + apply Hstep; [reflexivity|]. cbn [print files]. now rewrite Eq.
Qed.

(** When every text file of [paths] already holds the version, the loop
  writes nothing. *)
Lemma for_cargo_files_idle (paths : list Path) :
forall st,
  (forall p, In p paths -> files st p = bump version (files st p)) ->
  (forall p, In p paths -> files st p <> Some Directory) ->
  exists st',
    for_cargo_files env version paths st = (Ok tt, st')
    /\ files st' = files st.
Proof.
induction paths as [|q rest IH]; intros st Hfix Hd.
- now exists st.
- cbn [for_cargo_files].
  assert (Hrest : forall line,
            exists st',
              for_cargo_files env version rest (print line st)
              = (Ok tt, st')
              /\ files st' = files st).
  { intros line. apply (IH (print line st)); intros p Hp.
    - apply Hfix. now right.
    - apply Hd. now right. }
  destruct (files st q) as [[|content]|] eqn:Eq.
  + now elim (Hd q (or_introl eq_refl)).
  + pose proof (Hfix q (or_introl eq_refl)) as Hq.
    rewrite Eq in Hq. cbn [bump] in Hq. injection Hq as Hq.
    symmetry in Hq.
    change (sub_first (key +++ version +++ dq) true content = content)
      in Hq.
    unfold re_sub_version. rewrite no_backslash, Hq.
    rewrite String.eqb_refl. cbn [negb]. apply Hrest.
  + apply Hrest.
Qed.

End Loop.

Lemma for_cargo_files_ok_inv (env : Env) (version : string)
  (paths : list Path) :
forall st st',
  for_cargo_files env version paths st = (Ok tt, st') ->
  forall p, In p paths -> files st p <> Some Directory.
Proof.
induction paths as [|q rest IH]; intros st st' Hrun p Hp; [contradiction|].
cbn [for_cargo_files] in Hrun.
assert (Hstep : forall st1,
          for_cargo_files env version rest st1 = (Ok tt, st') ->
          (forall r, same_kind (files st r) (files st1 r)) ->
          files st q <> Some Directory ->
          files st p <> Some Directory).
{ intros st1 Hrun1 Hk Hq. destruct Hp as [<-|Hp]; [exact Hq|].
  intros E. apply (IH _ _ Hrun1 p Hp).
  specialize (Hk p). rewrite E in Hk.
  destruct (files st1 p) as [[|c]|]; [reflexivity|contradiction..]. }
destruct (files st q) as [[|content]|] eqn:Eq; [discriminate| |].
- destruct (re_sub_version version content) as [new_content|];
    [|discriminate].
  destruct (negb (String.eqb content new_content)).
  + apply (Hstep _ Hrun); [|rewrite ?Eq; discriminate].
    intros r. cbn [print write_text files].
    destruct (path_eqb r q) eqn:E; [|apply same_kind_refl].
    apply path_eqb_eq in E. subst r. now rewrite Eq.
  + apply (Hstep _ Hrun); [|rewrite ?Eq; discriminate].
    intros r. apply same_kind_refl.
- apply (Hstep _ Hrun); [|rewrite ?Eq; discriminate].
  intros r. apply same_kind_refl.
Qed.

Lemma cargo_files_nodup : NoDup cargo_files.
Proof.
repeat constructor; cbn; intuition discriminate.
Qed.

(** X11.  Whatever it finds and however it ends, [main] changes no path
  other than the two Cargo files, and creates or removes nothing: every
  path keeps an entry of the kind it had.  Without a [VERSION] file it
  returns 1 and leaves every path as it was. *)
Theorem main_touches_only_cargo_files (env : Env) (st : State) (p : Path) :
same_kind (files st p) (files (snd (main env st)) p)
/\ (is_cargo_file p = false -> files (snd (main env st)) p = files st p)
/\ (files st ["VERSION"] = None ->
    fst (main env st) = Ok 1%Z
    /\ files (snd (main env st)) = files st).
Proof.
unfold main.
destruct (files st ["VERSION"]) as [[|text]|] eqn:Ev.
- repeat split; [apply same_kind_refl|discriminate].
- set (version := strip env text).
  set (st1 := print ("Version from VERSION file: " +++ version) st).
  destruct (for_cargo_files_frame env version cargo_files st1 p) as [K F].
  assert (Hn : is_cargo_file p = false -> ~ In p cargo_files).
  { unfold is_cargo_file. intros E I. apply existsb_path_in in I.
    congruence. }
  destruct (for_cargo_files env version cargo_files st1) as [[u| |] st2];
    cbn [snd print files] in *; repeat split; auto; discriminate.
- repeat split; apply same_kind_refl.
Qed.

Lemma main_touches_only_cargo_files_witness :
fst (main sample_env (mkState (fun _ => None) [])) = Ok 1%Z
/\ files (snd (main sample_env (mkState (fun _ => None) [])))
   = (fun _ => None).
Proof.
exact (proj2 (proj2 (main_touches_only_cargo_files sample_env
                       (mkState (fun _ => None) []) ["VERSION"])) eq_refl).
Defined.

Lemma main_sets_version_aux (env : Env) (st : State) (text : string) :
files st ["VERSION"] = Some (TextFile text) ->
PyStr.contains "\" (strip env text) = false ->
(forall p, In p cargo_files -> files st p <> Some Directory) ->
exists st',
  main env st = (Ok 0%Z, st')
  /\ forall p,
       files st' p = if is_cargo_file p
                     then bump (strip env text) (files st p)
                     else files st p.
Proof.
intros Ev Hb Hd. unfold main. rewrite Ev.
set (version := strip env text) in *.
set (st1 := print ("Version from VERSION file: " +++ version) st).
destruct (for_cargo_files_ok env version Hb cargo_files cargo_files_nodup
            st1 Hd) as (st2 & Hrun & Hfiles).
rewrite Hrun. eexists. split; [reflexivity|].
intros p. cbn [print files]. exact (Hfiles p).
Qed.

(** X12.  With a [VERSION] file whose stripped text has no backslash, and
  no directory in the place of a Cargo file, [main] returns 0, and
  afterwards each Cargo file that is there holds the version in its
  first version line while a missing one is still missing (it is
  skipped); every other path is as before. *)
Theorem main_sets_version (env : Env) (st : State) (text : string) :
files st ["VERSION"] = Some (TextFile text) ->
PyStr.contains "\" (strip env text) = false ->
(forall p, In p cargo_files -> files st p <> Some Directory) ->
exists st',
  main env st = (Ok 0%Z, st')
  /\ forall p,
       files st' p = if is_cargo_file p
                     then bump (strip env text) (files st p)
                     else files st p.
Proof.
intros Ev Hb Hd. unfold main. rewrite Ev.
set (version := strip env text) in *.
set (st1 := print ("Version from VERSION file: " +++ version) st).
destruct (for_cargo_files_ok env version Hb cargo_files cargo_files_nodup
            st1 Hd) as (st2 & Hrun & Hfiles).
rewrite Hrun. eexists. split; [reflexivity|].
intros p. cbn [print files]. exact (Hfiles p).
Qed.

Lemma main_sets_version_witness :
exists st',
  main sample_env sample_state = (Ok 0%Z, st')
  /\ files st' ["Cargo.toml"]
     = bump "0.2.0" (Some (TextFile sample_cargo))
  /\ files st' ["kalixpy"; "Cargo.toml"] = None.
Proof.
assert (Hd : forall p, In p cargo_files ->
                       files sample_state p <> Some Directory).
{ intros p [<-|[<-|[]]]; discriminate. }
destruct (main_sets_version sample_env sample_state "0.2.0"
            eq_refl eq_refl Hd) as (st' & Hrun & Hfiles).
exists st'. split; [exact Hrun|]. split.
- exact (Hfiles ["Cargo.toml"]).
- exact (Hfiles ["kalixpy"; "Cargo.toml"]).
Defined.

(** X13.  When the version is plain (not empty, without double quote or
  backslash) and a run has returned 0, a second run right after it
  returns 0 again and writes nothing: the files are those the first
  run left. *)
Theorem main_second_run_is_idle (env : Env) (st st1 : State)
  (text : string) :
files st ["VERSION"] = Some (TextFile text) ->
plain_version (strip env text) ->
main env st = (Ok 0%Z, st1) ->
exists st2, main env st1 = (Ok 0%Z, st2) /\ files st2 = files st1.
Proof.
intros Ev (Hne & Hu & Hb) Hrun.
set (version := strip env text) in *.
assert (Hd : forall p, In p cargo_files -> files st p <> Some Directory).
{ unfold main in Hrun. rewrite Ev in Hrun. fold version in Hrun.
  destruct (for_cargo_files env version cargo_files _)
    as [[u| |] st'] eqn:Hloop; try discriminate.
  destruct u. intros p Hp.
  exact (for_cargo_files_ok_inv _ _ _ _ _ Hloop p Hp). }
destruct (main_sets_version_aux env st text Ev Hb Hd)
  as (st1' & Hrun' & Hfiles).
rewrite Hrun in Hrun'. injection Hrun' as E. subst st1'.
assert (Ev1 : files st1 ["VERSION"] = Some (TextFile text))
  by (rewrite Hfiles; exact Ev).
unfold main. rewrite Ev1. fold version.
set (st1a := print ("Version from VERSION file: " +++ version) st1).
destruct (for_cargo_files_idle env version Hb cargo_files st1a)
  as (st2 & Hloop & Hsame).
- intros p Hp. unfold st1a. cbn [print files]. rewrite Hfiles.
  assert (Hc : is_cargo_file p = true) by now apply existsb_path_in.
  rewrite Hc. destruct (files st p) as [[|content]|]; try reflexivity.
  cbn [bump]. fold version. now rewrite sub_first_idempotent.
- intros p Hp. unfold st1a. cbn [print files]. rewrite Hfiles.
  assert (Hc : is_cargo_file p = true) by now apply existsb_path_in.
  rewrite Hc. specialize (Hd p Hp).
  destruct (files st p) as [[|content]|]; [now elim Hd|discriminate..].
- rewrite Hloop. eexists. split; [reflexivity|].
  cbn [print files]. exact Hsame.
Qed.

Lemma main_second_run_is_idle_witness :
exists st2,
  main sample_env (snd (main sample_env sample_state)) = (Ok 0%Z, st2)
  /\ files st2 = files (snd (main sample_env sample_state)).
Proof.
apply (main_second_run_is_idle sample_env sample_state _ "0.2.0").
- reflexivity.
- repeat split. discriminate.
- reflexivity.
Defined.

End UpdateVersionFacts.
